(** * Tab presence tracking: session ids, presence state machine, tab registry

    A shallow embedding of the services of the application
    (session.service.ts, presence.service.ts, tabs.store.ts) and the
    properties of the presence core that follow from the code.

    Conventions.
    - Wall-clock instants ([Date.now()], [new Date()], [Date#getTime()]) are
      integer milliseconds, in [Z].
    - A method that reads its surroundings (a clock, the response of the
      remote store, the browser storages) takes what it reads as arguments,
      in the order the code reads them.
    - A method that mutates the service returns the new service; what it
      sends outside (console lines, requests to the remote store) is
      returned as a list of [Effect]s, oldest first.
    - A JavaScript exception is the [Throw] result of a [completion]. *)

From stdpp Require Import base option list strings pretty gmap.
From Stdlib Require Import Ascii ZArith Lia.

Set Warnings "-clear-no-such-hyp".

Local Open Scope string_scope.
Local Open Scope list_scope.
Local Open Scope Z_scope.

(** ** Common data *)

(** The three presence states, ['active' | 'idle' | 'stale']. *)
Inductive PresenceState := Active | Idle | Stale.

#[global] Instance PresenceState_eq_dec : EqDecision PresenceState.
Proof. solve_decision. Defined.

Definition state_name (s : PresenceState) : string :=
  match s with Active => "active" | Idle => "idle" | Stale => "stale" end.

(** A thrown or returned error object; the code reads its [message] only. *)
Record JsError := { message : string }.

(** The result of running a piece of JavaScript: a value, or an exception
    that nothing caught. *)
Inductive completion (A : Type) :=
| Normal (a : A)
| Throw (e : JsError).
Arguments Normal {A} a.
Arguments Throw {A} e.

#[global] Instance completion_ret : MRet completion := fun _ a => Normal a.

#[global] Instance completion_bind : MBind completion := fun _ _ k c =>
  match c with
  | Normal a => k a
  | Throw e => Throw e
  end.

(** JavaScript truthiness of a [string | null]: [null] and [''] are falsy. *)
Definition truthy (v : option string) : bool :=
  match v with
  | Some s => negb (bool_decide (s = ""))
  | None => false
  end.

(** What the services send outside. *)
Record UpsertRow := {
  row_user_id : string;
  row_device_id : string;
  row_tab_id : string;
  row_user_agent : string;
  row_is_active : bool;
  row_last_seen : string
}.

Inductive Effect :=
| ConsoleLog (line : string)
| ConsoleError (line : string) (err : JsError)
| Upsert (row : UpsertRow)          (* from('user_tabs').upsert(row, onConflict) *)
| Select (user : string).           (* from('user_tabs').select('*').eq('user_id', user) *)

(** ** session.service.ts *)

Module SessionService.

(** The browser's Web Storage as the code meets it. An accessible storage
    answers [getItem] with the stored string or [null] and stores on
    [setItem]; a storage without room throws on [setItem]
    (QuotaExceededError); a storage the page may not use throws on every
    access (SecurityError). *)
Inductive StorageAccess := Granted | Full | Denied.

Record Storage := {
  access : StorageAccess;
  items : gmap string string
}.

Definition SecurityError : JsError :=
  {| message := "The operation is insecure." |}.
Definition QuotaExceededError : JsError :=
  {| message := "The quota has been exceeded." |}.

Definition getItem (key : string) (s : Storage) : completion (option string) :=
  match access s with
  | Denied => Throw SecurityError
  | Granted | Full => Normal (items s !! key)
  end.

Definition setItem (key value : string) (s : Storage) : completion Storage :=
  match access s with
  | Granted => Normal {| access := Granted; items := <[key := value]> (items s) |}
  | Full => Throw QuotaExceededError
  | Denied => Throw SecurityError
  end.

(** [Math.random() * 16 | 0]: the supply gives, for the n-th call of
    [Math.random], the draw already scaled and truncated, a number from
    0 to 15; [used] counts the calls made so far. *)
Record Random := {
  draws : nat -> Z;
  used : nat
}.

Definition next_draw (g : Random) : Z * Random :=
  (draws g (used g) `mod` 16, {| draws := draws g; used := S (used g) |}).

(** [v.toString(16)] for [0 <= v < 16]. *)
Definition hex_digit (v : Z) : Ascii.ascii :=
  default "0"%char (String.get (Z.to_nat v) "0123456789abcdef").

(** The callback of [replace(/[xy]/g, ...)]. *)
Definition uuid_char (c : Ascii.ascii) (r : Z) : Ascii.ascii :=
  let v := if bool_decide (c = "x"%char) then r else Z.lor (Z.land r 3) 8 in
  hex_digit v.

Fixpoint replace_xy (template : string) (g : Random) : string * Random :=
  match template with
  | EmptyString => (EmptyString, g)
  | String c rest =>
      if bool_decide (c = "x"%char) || bool_decide (c = "y"%char) then
        let '(r, g1) := next_draw g in
        let '(out, g2) := replace_xy rest g1 in
        (String (uuid_char c r) out, g2)
      else
        let '(out, g1) := replace_xy rest g in
        (String c out, g1)
  end.

Definition generateUUID (g : Random) : string * Random :=
  replace_xy "xxxxxxxx-xxxx-4xxx-yxxx-xxxxxxxxxxxx" g.

(** The body shared by [getOrCreateDeviceId] (key ['deviceId'], on
    [localStorage]) and [getOrCreateTabId] (key ['tabId'], on
    [sessionStorage]). *)
Definition getOrCreate (key : string) (s : Storage) (g : Random)
  : completion (string * Storage * Random) :=
  stored ← getItem key s;
  if truthy stored then
    Normal (default "" stored, s, g)
  else
    let '(id, g1) := generateUUID g in
    s1 ← setItem key id s;
    Normal (id, s1, g1).

Definition getOrCreateDeviceId (localStorage : Storage) (g : Random)
  : completion (string * Storage * Random) :=
  getOrCreate "deviceId" localStorage g.

Definition getOrCreateTabId (sessionStorage : Storage) (g : Random)
  : completion (string * Storage * Random) :=
  getOrCreate "tabId" sessionStorage g.

Definition getUserAgent (navigator_userAgent : string) : string :=
  navigator_userAgent.

(** The browser globals the service reads. *)
Record Browser := {
  localStorage : Storage;
  sessionStorage : Storage;
  navigator_userAgent : string;
  random : Random
}.

(** When the identifier could not be read or could not be stored. *)
Definition unavailable (key : string) (s : Storage) : Prop :=
  access s = Denied ∨ (access s = Full ∧ truthy (items s !! key) = false).

(** *** Vocabulary of the properties *)

(** [e] is the exception the storage gives to a call that finds no
    identifier under [key]: thrown by the read, or, the read having found
    nothing, thrown by every write under the key. *)
Definition thrown_by_storage (key : string) (s : Storage) (e : JsError) : Prop :=
  getItem key s = Throw e ∨
  (∃ stored, getItem key s = Normal stored ∧ truthy stored = false ∧
             ∀ value, setItem key value s = Throw e).

Definition is_hex (c : Ascii.ascii) : Prop :=
  c ∈ String.list_ascii_of_string "0123456789abcdef".

(** The characters [x] and [y] of a template. *)
Fixpoint placeholders (template : string) : nat :=
  match template with
  | EmptyString => 0
  | String c rest =>
      (if bool_decide (c = "x"%char) || bool_decide (c = "y"%char) then 1 else 0)
      + placeholders rest
  end%nat.

End SessionService.

(** ** presence.service.ts *)

Module PresenceService.
Import SessionService.

Record TabPresence := {
  userId : string;
  deviceId : string;
  tabId : string;
  isActive : bool;
  lastSeen : Z;                 (* a Date, as its time value *)
  userAgent : string;
  state : PresenceState
}.

(** The mutable fields of the service. [tabPresenceSubject] and
    [isTabActiveSubject] hold the current value of the two
    BehaviorSubjects; [heartbeats] counts the interval subscriptions
    that [startHeartbeat] has made. What the subscribers of
    [tabPresence$] do on a new value (the store fetches the tabs, the
    dashboard notes the tab id) belongs to them and is not part of the
    effects of this service. *)
Record t := {
  tabPresenceSubject : option TabPresence;
  isTabActiveSubject : bool;
  lastActivityTime : Z;
  heartbeats : nat
}.

Definition heartbeatInterval : Z := 30000.
Definition idleTimeout : Z := 5 * 60 * 1000.
Definition staleTimeout : Z := 30 * 60 * 1000.

(** Field initialisers: [now] is the [Date.now()] of construction. *)
Definition construct (now : Z) : t :=
  {| tabPresenceSubject := None;
     isTabActiveSubject := true;
     lastActivityTime := now;
     heartbeats := 0 |}.

Definition set_isTabActive (b : bool) (st : t) : t :=
  {| tabPresenceSubject := tabPresenceSubject st;
     isTabActiveSubject := b;
     lastActivityTime := lastActivityTime st;
     heartbeats := heartbeats st |}.

Definition set_lastActivityTime (now : Z) (st : t) : t :=
  {| tabPresenceSubject := tabPresenceSubject st;
     isTabActiveSubject := isTabActiveSubject st;
     lastActivityTime := now;
     heartbeats := heartbeats st |}.

Definition set_tabPresence (p : TabPresence) (st : t) : t :=
  {| tabPresenceSubject := Some p;
     isTabActiveSubject := isTabActiveSubject st;
     lastActivityTime := lastActivityTime st;
     heartbeats := heartbeats st |}.

(** *** setupActivityTracking: the listeners *)

Inductive VisibilityState := visible | hidden.

Inductive ActivityEvent :=
| focus                                   (* window *)
| blur                                    (* window *)
| visibilitychange (v : VisibilityState)  (* document, with document.visibilityState *)
| mousedown
| keydown
| touchstart.

(** The listener of [ev], run when the clock reads [now]. *)
Definition listener (ev : ActivityEvent) (now : Z) (st : t) : t * list Effect :=
  match ev with
  | focus =>
      (set_lastActivityTime now (set_isTabActive true st),
       [ConsoleLog "[Presence] Tab focused - isActive=true"])
  | blur =>
      (set_isTabActive false st,
       [ConsoleLog "[Presence] Tab blurred - isActive=false"])
  | visibilitychange visible =>
      (set_lastActivityTime now (set_isTabActive true st),
       [ConsoleLog "[Presence] Document visible - isActive=true"])
  | visibilitychange hidden =>
      (set_isTabActive false st,
       [ConsoleLog "[Presence] Document hidden - isActive=false"])
  | mousedown | keydown | touchstart =>
      (set_lastActivityTime now st, [])
  end.

(** *** updatePresenceState *)

(** The three-way branch on [timeSinceLastActivity] and
    [isCurrentlyActive]. *)
Definition computeState (timeSinceLastActivity : Z) (isCurrentlyActive : bool)
  : PresenceState :=
  if bool_decide (timeSinceLastActivity > staleTimeout) then Stale
  else if bool_decide (timeSinceLastActivity > idleTimeout) || negb isCurrentlyActive
  then Idle
  else Active.

(** [now] is the [Date.now()] the elapsed time is taken from, [stamp] the
    [new Date()] stored as [lastSeen] a few lines later. *)
Definition updatePresenceState (now stamp : Z) (st : t) : t * list Effect :=
  match tabPresenceSubject st with
  | None => (st, [])
  | Some presence =>
      let timeSinceLastActivity := now - lastActivityTime st in
      let isCurrentlyActive := isTabActiveSubject st in
      let state' := computeState timeSinceLastActivity isCurrentlyActive in
      let oldState := state presence in
      let updatedPresence :=
        {| userId := userId presence;
           deviceId := deviceId presence;
           tabId := tabId presence;
           isActive := isCurrentlyActive;
           lastSeen := stamp;
           userAgent := userAgent presence;
           state := state' |} in
      (set_tabPresence updatedPresence st,
       if bool_decide (oldState = state') then []
       else [ConsoleLog ("[Presence] State transition: " +:+ state_name oldState
                         +:+ " → " +:+ state_name state')])
  end.

(** How the awaited upsert settles: with a result, of which the code reads
    [error], or with a rejection. *)
Inductive UpsertResult :=
| UpsertResolved (error : option JsError)
| UpsertRejected (err : JsError).

(** What one run of the subscriber of the interval leaves: the service,
    how the promise of the async callback settles, and what went
    outside. *)
Record Beat := {
  after : t;
  settled : completion unit;
  sent : list Effect
}.

Section Dates.
(** [Date.prototype.toISOString]. *)
Variable toISOString : Z -> string.

(** *** upsertPresence *)

Definition upsertRow (presence : TabPresence) : UpsertRow :=
  {| row_user_id := userId presence;
     row_device_id := deviceId presence;
     row_tab_id := tabId presence;
     row_user_agent := userAgent presence;
     row_is_active := isActive presence;
     row_last_seen := toISOString (lastSeen presence) |}.

(** [error] is the [error] field of the awaited result of the upsert:
    [None] for [null]. The client reports a failed request there.
    The method does not write to the service. For an upsert that
    rejects see [upsertPresence_settling]. *)
Definition upsertPresence (error : option JsError) (st : t) : list Effect :=
  match tabPresenceSubject st with
  | None => []
  | Some presence =>
      Upsert (upsertRow presence) ::
      match error with
      | Some e => [ConsoleError "Failed to upsert presence:" e]
      | None => []
      end
  end.

(** *** startHeartbeat *)

Definition startHeartbeat (st : t) : t :=
  {| tabPresenceSubject := tabPresenceSubject st;
     isTabActiveSubject := isTabActiveSubject st;
     lastActivityTime := lastActivityTime st;
     heartbeats := S (heartbeats st) |}.

(** The subscriber of the interval: one heartbeat tick. *)
Definition heartbeatTick (now stamp : Z) (error : option JsError) (st : t)
  : t * list Effect :=
  let '(st1, out1) := updatePresenceState now stamp st in
  (st1, out1 ++ upsertPresence error st1).

(** *** The heartbeat when the upsert may reject *)

(** [upsertPresence] with the way its own promise settles. Nothing in the
    method catches a rejection of the awaited upsert: the request is out,
    the lines after the [await] do not run, and the promise of the method
    rejects with the same error. *)
Definition upsertPresence_settling (result : UpsertResult) (st : t)
  : completion unit * list Effect :=
  match result with
  | UpsertResolved error => (Normal (), upsertPresence error st)
  | UpsertRejected err =>
      match tabPresenceSubject st with
      | None => (Normal (), [])
      | Some presence => (Throw err, [Upsert (upsertRow presence)])
      end
  end.

(** The subscriber of the interval,
    [async () => { this.updatePresenceState(); await this.upsertPresence(); }]:
    its promise settles as that of [upsertPresence], and nobody looks at
    it. *)
Definition heartbeat (now stamp : Z) (result : UpsertResult) (st : t) : Beat :=
  let '(st1, out1) := updatePresenceState now stamp st in
  let '(c, out2) := upsertPresence_settling result st1 in
  {| after := st1; settled := c; sent := out1 ++ out2 |}.

(** *** initializePresence *)

(** [stamp] is the [new Date()] of the new record, [error] the result of
    the immediate upsert. *)
Definition initializePresence (userId : string) (stamp : Z)
    (error : option JsError) (env : Browser) (st : t)
  : completion (t * Browser * list Effect) :=
  '(deviceId, ls, g1) ← getOrCreateDeviceId (localStorage env) (random env);
  '(tabId, ss, g2) ← getOrCreateTabId (sessionStorage env) g1;
  let userAgent := getUserAgent (navigator_userAgent env) in
  let presence :=
    {| userId := userId;
       deviceId := deviceId;
       tabId := tabId;
       isActive := true;
       lastSeen := stamp;
       userAgent := userAgent;
       state := Active |} in
  let st1 := set_tabPresence presence st in
  let out := upsertPresence error st1 in
  Normal (startHeartbeat st1,
          {| localStorage := ls; sessionStorage := ss;
             navigator_userAgent := navigator_userAgent env; random := g2 |},
          out).

(** *** The service over time *)

(** What reaches the service after [initializePresence]: a DOM event, or
    a firing of the heartbeat interval together with the clock
    readings and the upsert result of that tick. *)
Inductive Input :=
| Event (ev : ActivityEvent) (now : Z)
| Tick (now stamp : Z) (error : option JsError).

Definition step (i : Input) (st : t) : t * list Effect :=
  match i with
  | Event ev now => listener ev now st
  | Tick now stamp error =>
      match heartbeats st with
      | O => (st, [])
      | S _ => heartbeatTick now stamp error st
      end
  end.

Fixpoint run (inputs : list Input) (st : t) : t * list Effect :=
  match inputs with
  | [] => (st, [])
  | i :: rest =>
      let '(st1, out1) := step i st in
      let '(st2, out2) := run rest st1 in
      (st2, out1 ++ out2)
  end.

End Dates.

(** *** Vocabulary of the properties *)

Definition minute : Z := 60 * 1000.

(** The rule of the state machine, in the words of the specification:
    [s] is the state for [elapsed] milliseconds without activity and the
    focus flag [isFocused]. *)
Definition presence_rule (elapsed : Z) (isFocused : bool) (s : PresenceState)
  : Prop :=
  (s = Stale ↔ elapsed > 30 * minute) ∧
  (s = Idle ↔ elapsed ≤ 30 * minute ∧ (elapsed > 5 * minute ∨ isFocused = false)) ∧
  (s = Active ↔ elapsed ≤ 5 * minute ∧ isFocused = true).

(** Two records of the same tab: all fields but [isActive], [lastSeen]
    and [state] agree. *)
Definition same_tab (p q : TabPresence) : Prop :=
  userId p = userId q ∧ deviceId p = deviceId q ∧
  tabId p = tabId q ∧ userAgent p = userAgent q.

(** Presence is initialised and a heartbeat runs. *)
Definition live (st : t) : Prop :=
  is_Some (tabPresenceSubject st) ∧ heartbeats st ≠ 0%nat.

Definition is_upsert (e : Effect) : bool :=
  match e with Upsert _ => true | _ => false end.



(** The states in the order a tab ages through them. *)
Definition severity (s : PresenceState) : nat :=
  match s with Active => 0 | Idle => 1 | Stale => 2 end.

(** The inputs whose listener raises the focus flag. *)
Definition refocus (i : Input) : bool :=
  match i with
  | Event focus _ | Event (visibilitychange visible) _ => true
  | _ => false
  end.

(** The inputs whose listener refreshes [lastActivityTime]. *)
Definition is_event (i : Input) : bool :=
  match i with Event _ _ => true | Tick _ _ _ => false end.

End PresenceService.

(** ** tabs.store.ts *)

(** A JavaScript [Map] with string keys: the entries in insertion order,
    one entry per key. [set] on a key that is present replaces the value
    where the entry stands; on a new key it appends the entry. *)
Module JsMap.
Section Ops.
Context {V : Type}.

Fixpoint has (key : string) (m : list (string * V)) : bool :=
  match m with
  | [] => false
  | (k, _) :: rest => if decide (k = key) then true else has key rest
  end.

Fixpoint get (key : string) (m : list (string * V)) : option V :=
  match m with
  | [] => None
  | (k, v) :: rest => if decide (k = key) then Some v else get key rest
  end.

Fixpoint set (key : string) (value : V) (m : list (string * V))
  : list (string * V) :=
  match m with
  | [] => [(key, value)]
  | (k, v) :: rest =>
      if decide (k = key) then (k, value) :: rest
      else (k, v) :: set key value rest
  end.
End Ops.
End JsMap.

Module TabsStore.

Record Tab := {
  user_id : string;
  device_id : string;
  tab_id : string;
  user_agent : string;
  is_active : bool;
  last_seen : string;
  created_at : string
}.

Record GroupedTabs := {
  deviceId : string;
  tabs : list Tab
}.

(** The signals and private fields of the store; [pollingInterval] is
    whether a timer handle is held. *)
Record t := {
  allTabsSignal : list Tab;
  isLoadingSignal : bool;
  errorSignal : option string;
  pollingInterval : bool;
  userId : option string
}.

Definition construct : t :=
  {| allTabsSignal := [];
     isLoadingSignal := false;
     errorSignal := None;
     pollingInterval := false;
     userId := None |}.

Definition set_allTabs (data : list Tab) (st : t) : t :=
  {| allTabsSignal := data;
     isLoadingSignal := isLoadingSignal st;
     errorSignal := errorSignal st;
     pollingInterval := pollingInterval st;
     userId := userId st |}.

Definition set_isLoading (b : bool) (st : t) : t :=
  {| allTabsSignal := allTabsSignal st;
     isLoadingSignal := b;
     errorSignal := errorSignal st;
     pollingInterval := pollingInterval st;
     userId := userId st |}.

Definition set_error (e : option string) (st : t) : t :=
  {| allTabsSignal := allTabsSignal st;
     isLoadingSignal := isLoadingSignal st;
     errorSignal := e;
     pollingInterval := pollingInterval st;
     userId := userId st |}.

(** *** groupedTabs *)

(** The body of the [forEach]: [push] extends the array the map holds
    under the key. *)
Definition groupTab (grouped : list (string * list Tab)) (tab : Tab)
  : list (string * list Tab) :=
  let grouped1 :=
    if negb (JsMap.has (device_id tab) grouped)
    then JsMap.set (device_id tab) [] grouped
    else grouped in
  match JsMap.get (device_id tab) grouped1 with
  | Some arr => JsMap.set (device_id tab) (arr ++ [tab]) grouped1
  | None => grouped1
  end.

Definition groupedTabs (allTabs : list Tab) : list GroupedTabs :=
  (λ entry, {| deviceId := entry.1; tabs := entry.2 |})
    <$> foldl groupTab [] allTabs.

(** *** fetchTabs *)

(** How the awaited query settles: with a [{ data, error }] result, or
    with a rejection. *)
Inductive QueryResult :=
| Resolved (data : option (list Tab)) (error : option JsError)
| Rejected (err : JsError).

(** Lines before the [try]. *)
Definition fetchTabs_begin (st : t) : t :=
  set_error None (set_isLoading true st).

(** The [try] after the [await], its [catch] and [finally]. *)
Definition fetchTabs_settle (result : QueryResult) (st : t) : t * list Effect :=
  let '(st1, out) :=
    match result with
    | Resolved _ (Some error) =>
        (set_error (Some (message error)) st,
         [ConsoleError "Failed to fetch tabs:" error])
    | Resolved (Some data) None =>
        (set_allTabs data st,
         [ConsoleLog ("Tabs fetched: " +:+ pretty (length data) +:+ " tabs")])
    | Resolved None None => (st, [])
    | Rejected err =>
        (set_error (Some (message err)) st,
         [ConsoleError "Error fetching tabs:" err])
    end in
  (set_isLoading false st1, out).

Definition fetchTabs (user : string) (result : QueryResult) (st : t)
  : t * list Effect :=
  if negb (truthy (Some user)) then
    (set_error (Some "No user ID provided") st, [])
  else
    let '(st1, out) := fetchTabs_settle result (fetchTabs_begin st) in
    (st1, Select user :: out).

(** A fetch that failed: an error in the result, or a rejection. *)
Definition failure (result : QueryResult) : option JsError :=
  match result with
  | Resolved _ error => error
  | Rejected err => Some err
  end.

(** *** getTabState *)

(** [a > b] where [a] may be [NaN] ([None]): false on [NaN]. *)
Definition js_gt (a : option Z) (b : Z) : bool :=
  match a with
  | Some v => bool_decide (v > b)
  | None => false
  end.

Section Dates.
(** [new Date(s).getTime()]; [None] is the [NaN] of an invalid date. *)
Variable Date_getTime : string -> option Z.

(** [now] is the time value of [new Date()]. *)
Definition getTabState (now : Z) (tab : Tab) : PresenceState :=
  let lastSeen := Date_getTime (last_seen tab) in
  let diffMs := (fun seen => now - seen) <$> lastSeen in
  if js_gt diffMs (30 * 60 * 1000) then Stale
  else if js_gt diffMs (5 * 60 * 1000) then Idle
  else Active.
End Dates.

(** *** What the grouping should be, in the words of the specification *)

(** The distinct values of a list, each where it first occurs. *)
Fixpoint first_occurrences (keys : list string) : list string :=
  match keys with
  | [] => []
  | k :: rest => k :: filter (λ k', k' ≠ k) (first_occurrences rest)
  end.

(** One group per distinct [device_id], in first-occurrence order, each
    holding the records of that device in the order of the input. *)
Definition partition_by_device (allTabs : list Tab) : list GroupedTabs :=
  (λ d, {| deviceId := d; tabs := filter (λ tab, device_id tab = d) allTabs |})
    <$> first_occurrences (device_id <$> allTabs).

(** *** activeTabs, activeTabs$ *)

Definition activeTabs (allTabs : list Tab) : list Tab :=
  filter (λ tab, is_active tab = true) allTabs.

(** [activeTabs$]. *)
Definition activeTabsCount (allTabs : list Tab) : nat :=
  length (activeTabs allTabs).

(** *** formatLastSeen *)

(** [a < b] where [a] may be [NaN]: false on [NaN]. *)
Definition js_lt (a : option Z) (b : Z) : bool :=
  match a with
  | Some v => bool_decide (v < b)
  | None => false
  end.

(** A number in a template literal. *)
Definition number_text (a : option Z) : string :=
  match a with
  | Some v => pretty v
  | None => "NaN"
  end.

Section Display.
(** [new Date(s).getTime()] and [new Date(s).toLocaleDateString()]. *)
Variable Date_getTime : string → option Z.
Variable toLocaleDateString : string → string.

(** [now] is the time value of [new Date()]. [Math.floor] of the quotient
    of two integers is the quotient rounded down; where that quotient is
    below 60, as the branches on it ask, the division of the code gives
    it exactly. *)
Definition formatLastSeen (now : Z) (dateString : string) : string :=
  let diffMs := (λ seen, now - seen) <$> Date_getTime dateString in
  let diffMins := (λ d, d `div` 60000) <$> diffMs in
  if js_lt diffMins 1 then "just now"
  else if js_lt diffMins 60 then number_text diffMins +:+ "m ago"
  else
    let diffHours := (λ m, m `div` 60) <$> diffMins in
    if js_lt diffHours 24 then number_text diffHours +:+ "h ago"
    else toLocaleDateString dateString.
End Display.

(** *** isCurrentTab *)

Definition isCurrentTab (tabId currentTabId : string) : bool :=
  bool_decide (tabId = currentTabId).

(** *** The store and its timer *)

Definition set_pollingInterval (held : bool) (st : t) : t :=
  {| allTabsSignal := allTabsSignal st;
     isLoadingSignal := isLoadingSignal st;
     errorSignal := errorSignal st;
     pollingInterval := held;
     userId := userId st |}.

Definition set_userId (user : string) (st : t) : t :=
  {| allTabsSignal := allTabsSignal st;
     isLoadingSignal := isLoadingSignal st;
     errorSignal := errorSignal st;
     pollingInterval := pollingInterval st;
     userId := Some user |}.

(** The store together with the interval timers of the page it made.
    [handle] is the number kept in [pollingInterval]; [intervals] are the
    timers that run, each with the [userId] its callback closed over;
    [next_handle] is the number [setInterval] gives next. *)
Record Polled := {
  signals : t;
  handle : option positive;
  intervals : gmap positive string;
  next_handle : positive
}.

Definition created : Polled :=
  {| signals := construct; handle := None; intervals := ∅; next_handle := 1 |}.

Definition with_signals (st : t) (w : Polled) : Polled :=
  {| signals := st;
     handle := handle w;
     intervals := intervals w;
     next_handle := next_handle w |}.

Definition stopPolling (w : Polled) : Polled :=
  match handle w with
  | Some h =>
      {| signals := set_pollingInterval false (signals w);
         handle := None;
         intervals := delete h (intervals w);     (* clearInterval *)
         next_handle := next_handle w |}
  | None => w
  end.

Definition startPolling (user : string) (w : Polled) : Polled :=
  let w1 := stopPolling w in
  let h := next_handle w1 in
  {| signals := set_pollingInterval true (signals w1);
     handle := Some h;
     intervals := <[h := user]> (intervals w1);   (* setInterval *)
     next_handle := Pos.succ h |}.

Definition cleanup (w : Polled) : Polled := stopPolling w.

(** [initializeTabs] up to its await: the user is noted and the fetch
    begun. *)
Definition initializeTabs_begin (user : string) (w : Polled) : Polled * list Effect :=
  let st := set_userId user (signals w) in
  if negb (truthy (Some user)) then
    (with_signals (set_error (Some "No user ID provided") st) w, [])
  else
    (with_signals (fetchTabs_begin st) w, [Select user]).

(** [initializeTabs] from its await on: the fetch settles (when one was
    begun) and polling starts. *)
Definition initializeTabs_resume (user : string) (result : QueryResult) (w : Polled)
  : Polled * list Effect :=
  if negb (truthy (Some user)) then (startPolling user w, [])
  else
    let '(st, out) := fetchTabs_settle result (signals w) in
    (startPolling user (with_signals st w), out).

Definition initializeTabs (user : string) (result : QueryResult) (w : Polled)
  : Polled * list Effect :=
  let '(w1, out1) := initializeTabs_begin user w in
  let '(w2, out2) := initializeTabs_resume user result w1 in
  (w2, out1 ++ out2).

(** The callback of the interval [h], were it to fire now. *)
Definition pollFires (h : positive) (result : QueryResult) (w : Polled)
  : Polled * list Effect :=
  match intervals w !! h with
  | Some user =>
      let '(st, out) := fetchTabs user result (signals w) in
      (with_signals st w, out)
  | None => (w, [])
  end.

(** The subscriber the constructor gives to [tabPresence$]; [presence] is
    whether the value published is a record and not [null]. *)
Definition onPresence (presence : bool) (result : QueryResult) (w : Polled)
  : Polled * list Effect :=
  match userId (signals w) with
  | Some user =>
      if presence && truthy (Some user) then
        let '(st, out) := fetchTabs user result (signals w) in
        (with_signals st w, out)
      else (w, [])
  | None => (w, [])
  end.

(** What is asked of the store over time. *)
Inductive Call :=
| CallInitializeBegin (user : string)
| CallInitializeResume (user : string) (result : QueryResult)
| CallStartPolling (user : string)
| CallStopPolling
| CallCleanup
| PollFires (h : positive) (result : QueryResult)
| PresencePublished (presence : bool) (result : QueryResult).

Definition call (c : Call) (w : Polled) : Polled * list Effect :=
  match c with
  | CallInitializeBegin user => initializeTabs_begin user w
  | CallInitializeResume user result => initializeTabs_resume user result w
  | CallStartPolling user => (startPolling user w, [])
  | CallStopPolling => (stopPolling w, [])
  | CallCleanup => (cleanup w, [])
  | PollFires h result => pollFires h result w
  | PresencePublished presence result => onPresence presence result w
  end.

Fixpoint calls (cs : list Call) (w : Polled) : Polled * list Effect :=
  match cs with
  | [] => (w, [])
  | c :: rest =>
      let '(w1, out1) := call c w in
      let '(w2, out2) := calls rest w1 in
      (w2, out1 ++ out2)
  end.

Definition is_select (e : Effect) : bool :=
  match e with Select _ => true | _ => false end.

(** The calls that neither note a user nor start a timer. *)
Definition passive (c : Call) : bool :=
  match c with
  | CallStopPolling | CallCleanup | PollFires _ _ | PresencePublished _ _ => true
  | _ => false
  end.

(** The timers that run are the one whose number the store holds. *)
Definition one_timer (w : Polled) : Prop :=
  match handle w with
  | Some h => ∃ user, intervals w = {[h := user]}
  | None => intervals w = ∅
  end.

(** The store holds the number of the only timer that runs, and its flag
    says whether it holds one. *)
Definition tidy (w : Polled) : Prop :=
  one_timer w ∧ pollingInterval (signals w) = bool_decide (is_Some (handle w)).

End TabsStore.

(** ** auth.service.ts, and the guard of the routes *)

Module AuthService.

(** The user of the authentication client; the application reads its
    [id]. *)
Record User := { id : string }.

(** The service: the value of [currentUserSubject]. *)
Record t := { currentUser : option User }.

(** The subject starts at [null]; the constructor then asks the client for
    the user. *)
Definition construct : t := {| currentUser := None |}.

(** How an awaited call of the client settles: with [{ data, error }],
    of which the code reads [data.user] and [error], or with a
    rejection. *)
Inductive AuthResult :=
| AuthResolved (user : option User) (error : option JsError)
| AuthRejected (err : JsError).

(** [initializeUser]: [user] is the [data.user] of [getUser()]. *)
Definition initializeUser (user : option User) (st : t) : t :=
  {| currentUser := user |}.

Definition signUp (result : AuthResult) (st : t) : completion (t * option User) :=
  match result with
  | AuthResolved _ (Some error) => Throw error
  | AuthResolved user None => Normal (st, user)
  | AuthRejected err => Throw err
  end.

Definition signIn (result : AuthResult) (st : t) : completion (t * option User) :=
  match result with
  | AuthResolved _ (Some error) => Throw error
  | AuthResolved user None => Normal ({| currentUser := user |}, user)
  | AuthRejected err => Throw err
  end.

(** The result of the client's [signOut] is not looked at. *)
Definition signOut (result : AuthResult) (st : t) : completion t :=
  match result with
  | AuthResolved _ _ => Normal {| currentUser := None |}
  | AuthRejected err => Throw err
  end.

(** [authGuard]: the answer, and the routes it navigates to. The subject
    gives its current value to the subscriber at once. *)
Definition authGuard (st : t) : bool * list string :=
  match currentUser st with
  | None => (false, ["/login"])
  | Some _ => (true, [])
  end.

End AuthService.

(** ** Values for the examples *)

Module Examples.
Import SessionService.

(** 2024-01-01T00:00:00.000Z as a time value. *)
Definition new_year : Z := 1704067200000.

(** [toISOString] and [new Date(s).getTime()] at the instant of the
    examples; the other values are not used. *)
Definition toISOString (ms : Z) : string :=
  if bool_decide (ms = new_year) then "2024-01-01T00:00:00.000Z"
  else "1970-01-01T00:00:00.000Z".

Definition Date_getTime (s : string) : option Z :=
  if bool_decide (s = "2024-01-01T00:00:00.000Z") then Some new_year
  else if bool_decide (s = "1970-01-01T00:00:00.000Z") then Some 0
  else None.

Definition empty_storage : Storage := {| access := Granted; items := ∅ |}.
Definition blocked_storage : Storage := {| access := Denied; items := ∅ |}.
Definition full_storage : Storage := {| access := Full; items := ∅ |}.

Definition counting : Random := {| draws := Z.of_nat; used := 0 |}.

Definition browser : Browser :=
  {| localStorage := empty_storage;
     sessionStorage := empty_storage;
     navigator_userAgent := "Mozilla/5.0";
     random := counting |}.

Definition presence : PresenceService.TabPresence :=
  {| PresenceService.userId := "user-1";
     PresenceService.deviceId := "device-1";
     PresenceService.tabId := "tab-1";
     PresenceService.isActive := true;
     PresenceService.lastSeen := new_year;
     PresenceService.userAgent := "Mozilla/5.0";
     PresenceService.state := Active |}.

(** A service with presence initialised, one heartbeat running, last
    activity at [new_year], focused. *)
Definition service : PresenceService.t :=
  {| PresenceService.tabPresenceSubject := Some presence;
     PresenceService.isTabActiveSubject := true;
     PresenceService.lastActivityTime := new_year;
     PresenceService.heartbeats := 1 |}.

(** The outcome of [initializePresence('user-1')] in [browser], at
    [new_year], the immediate upsert succeeding. *)
Definition started : PresenceService.t * Browser * list Effect :=
  match PresenceService.initializePresence toISOString "user-1" new_year None
          browser (PresenceService.construct new_year) with
  | Normal r => r
  | Throw _ => (PresenceService.construct new_year, browser, [])
  end.

Definition network_error : JsError := {| message := "Failed to fetch" |}.


Definition tab (device tab_ : string) (active : bool) : TabsStore.Tab :=
  {| TabsStore.user_id := "user-1";
     TabsStore.device_id := device;
     TabsStore.tab_id := tab_;
     TabsStore.user_agent := "Mozilla/5.0";
     TabsStore.is_active := active;
     TabsStore.last_seen := "2024-01-01T00:00:00.000Z";
     TabsStore.created_at := "2024-01-01T00:00:00.000Z" |}.

(** Three records on two devices. *)
Definition three_tabs : list TabsStore.Tab :=
  [tab "device-1" "tab-1" true; tab "device-2" "tab-2" false;
   tab "device-1" "tab-3" false].

Definition store : TabsStore.t :=
  TabsStore.set_allTabs three_tabs TabsStore.construct.
End Examples.

(** * Properties *)

(** ** Insertion-ordered maps *)

Section JsMapFacts.
Context {V : Type}.
Implicit Types (m : list (string * V)) (k : string) (v : V).

Lemma has_true_iff k m : JsMap.has k m = true ↔ k ∈ m.*1.
Proof.
  induction m as [|[k' v'] m IH]; simpl.
  - split; [done | by intros ?%elem_of_nil].
  - rewrite elem_of_cons. case_decide as Hk.
    + split; [intros _; left; by symmetry | done].
    + rewrite IH. split; [by right | intros [-> | ?]; done].
Qed.

Lemma has_false_iff k m : JsMap.has k m = false ↔ k ∉ m.*1.
Proof. rewrite <- has_true_iff. by destruct (JsMap.has k m). Qed.

Lemma set_absent k v m : k ∉ m.*1 → JsMap.set k v m = m ++ [(k, v)].
Proof.
  induction m as [|[k' v'] m IH]; simpl; [done |].
  rewrite not_elem_of_cons. intros [Hne Hnin].
  case_decide; [congruence |]. by rewrite IH.
Qed.

Lemma get_last k v m : k ∉ m.*1 → JsMap.get k (m ++ [(k, v)]) = Some v.
Proof.
  induction m as [|[k' v'] m IH]; simpl.
  - intros _. by case_decide.
  - rewrite not_elem_of_cons. intros [Hne Hnin].
    case_decide; [congruence |]. by apply IH.
Qed.

Lemma set_last k v v' m : k ∉ m.*1 → JsMap.set k v' (m ++ [(k, v)]) = m ++ [(k, v')].
Proof.
  induction m as [|[k' w] m IH]; simpl.
  - intros _. by case_decide.
  - rewrite not_elem_of_cons. intros [Hne Hnin].
    case_decide; [congruence |]. by rewrite IH.
Qed.

(** On a key that is present, [get] then [set] rewrites the entry of the
    key where it stands. *)
Lemma get_set_present (f : V → V) k m :
  NoDup m.*1 → k ∈ m.*1 →
  ∃ v, JsMap.get k m = Some v ∧
       JsMap.set k (f v) m = (λ e, if decide (e.1 = k) then (e.1, f e.2) else e) <$> m.
Proof.
  induction m as [|[k' w] m IH]; simpl.
  - by intros _ ?%elem_of_nil.
  - rewrite NoDup_cons, elem_of_cons. intros [Hnin Hnd] Hin.
    case_decide as Hk; simpl.
    + subst k'. exists w. split; [done |]. f_equal.
      symmetry. erewrite list_fmap_ext; [apply list_fmap_id |].
      intros i [k2 v2] Hi. simpl. case_decide; [| done]. subst k2.
      exfalso. apply Hnin. apply list_elem_of_fmap. exists (k, v2).
      split; [done |]. by eapply list_elem_of_lookup_2.
    + destruct Hin as [-> | Hin]; [done |].
      destruct (IH Hnd Hin) as (v & Hget & Hset). exists v.
      split; [done |]. by rewrite Hset.
Qed.
End JsMapFacts.

(** ** Grouping by device *)

Section Grouping.
Import TabsStore.
Implicit Types (tab : Tab) (l : list Tab) (m : list (string * list Tab)).

Lemma groupTab_new m tab :
  device_id tab ∉ m.*1 → groupTab m tab = m ++ [(device_id tab, [tab])].
Proof.
  intros Hnin. unfold groupTab.
  rewrite (proj2 (has_false_iff _ _) Hnin). simpl.
  rewrite (set_absent _ _ _ Hnin), (get_last _ _ _ Hnin).
  by rewrite (set_last _ _ _ _ Hnin).
Qed.

Lemma groupTab_known m tab :
  NoDup m.*1 → device_id tab ∈ m.*1 →
  groupTab m tab =
    (λ e, if decide (e.1 = device_id tab) then (e.1, e.2 ++ [tab]) else e) <$> m.
Proof.
  intros Hnd Hin. unfold groupTab.
  rewrite (proj2 (has_true_iff _ _) Hin). simpl.
  destruct (get_set_present (λ arr, arr ++ [tab]) _ _ Hnd Hin) as (arr & -> & ->).
  done.
Qed.

Lemma groupTab_known_keys m tab :
  NoDup m.*1 → device_id tab ∈ m.*1 → (groupTab m tab).*1 = m.*1.
Proof.
  intros Hnd Hin. rewrite (groupTab_known _ _ Hnd Hin).
  rewrite <- list_fmap_compose. apply list_fmap_ext.
  intros i [k v] _. simpl. by case_decide.
Qed.

Lemma filter_all {A} (P : A → Prop) `{!∀ x, Decision (P x)} (xs : list A) :
  (∀ x, P x) → filter P xs = xs.
Proof.
  intros HP. induction xs as [|x xs IH]; [done |].
  by rewrite filter_cons_True, IH.
Qed.

Lemma first_occurrences_filter (P : string → Prop) `{!∀ k, Decision (P k)} ks :
  filter P (first_occurrences ks) = first_occurrences (filter P ks).
Proof.
  induction ks as [|k ks IH]; simpl; [done |].
  rewrite !filter_cons. case_decide as HP; simpl.
  - rewrite <- IH. f_equal. rewrite !list_filter_filter.
    apply list_filter_iff. naive_solver.
  - rewrite <- IH. apply list_filter_filter_l. intros k' HP' ->. done.
Qed.

Lemma elem_of_first_occurrences k ks : k ∈ first_occurrences ks ↔ k ∈ ks.
Proof.
  induction ks as [|k' ks IH]; simpl; [done |].
  rewrite !elem_of_cons, list_elem_of_filter, IH.
  destruct (decide (k = k')); naive_solver.
Qed.

Lemma NoDup_first_occurrences ks : NoDup (first_occurrences ks).
Proof.
  induction ks as [|k ks IH]; simpl; [constructor |].
  apply NoDup_cons. split.
  - rewrite list_elem_of_filter. naive_solver.
  - by apply NoDup_filter.
Qed.

(** The loop from any map built so far: the groups already there are
    extended in place, the devices not seen yet are appended where they
    first occur. *)
Lemma foldl_groupTab l : ∀ m,
  NoDup m.*1 →
  foldl groupTab m l =
    ((λ e, (e.1, e.2 ++ filter (λ tab, device_id tab = e.1) l)) <$> m) ++
    ((λ d, (d, filter (λ tab, device_id tab = d) l)) <$>
       first_occurrences (filter (λ d, d ∉ m.*1) (device_id <$> l))).
Proof.
  induction l as [|tab l IH]; intros m Hnd.
  - simpl. rewrite app_nil_r. symmetry.
    erewrite list_fmap_ext; [apply list_fmap_id |].
    intros i [k v] _. simpl. by rewrite app_nil_r.
  - cbn [foldl]. destruct (decide (device_id tab ∈ m.*1)) as [Hin | Hnin].
    + rewrite IH by (by rewrite groupTab_known_keys).
      rewrite (groupTab_known_keys _ _ Hnd Hin).
      rewrite fmap_cons, filter_cons_False by (intros H; by apply H).
      f_equal.
      * rewrite (groupTab_known _ _ Hnd Hin), <- list_fmap_compose.
        apply list_fmap_ext. intros i [k v] _. simpl.
        rewrite filter_cons. repeat case_decide; simpl in *; try congruence.
        by rewrite <- app_assoc.
      * apply Forall_fmap_ext_1, Forall_forall. intros d Hd.
        rewrite filter_cons_False; [done |].
        apply elem_of_first_occurrences, list_elem_of_filter in Hd.
        intros Heq. destruct Hd as [Hd _]. apply Hd. by rewrite <- Heq.
    + rewrite (groupTab_new _ _ Hnin).
      rewrite IH by (rewrite fmap_app; simpl; apply NoDup_app;
        split_and!; [done | | apply NoDup_singleton];
        intros k Hk ->%list_elem_of_singleton; done).
      rewrite !fmap_app, <- app_assoc. simpl.
      rewrite filter_cons_True by done. simpl. f_equal.
      * apply list_fmap_ext. intros i [k v] Hi. simpl.
        rewrite filter_cons_False; [done |]. intros Heq. apply Hnin.
        rewrite Heq. apply list_elem_of_fmap. exists (k, v).
        split; [done |]. by eapply list_elem_of_lookup_2.
      * rewrite filter_cons_True by done. f_equal.
        rewrite first_occurrences_filter, list_filter_filter.
        rewrite (list_filter_iff (λ d, d ∉ m.*1 ++ [device_id tab])
                   (λ d, d ≠ device_id tab ∧ d ∉ m.*1)).
        2:{ intros d. rewrite not_elem_of_app, list_elem_of_singleton. tauto. }
        apply Forall_fmap_ext_1, Forall_forall. intros d Hd.
        rewrite filter_cons_False; [done |].
        apply elem_of_first_occurrences, list_elem_of_filter in Hd.
        intros Heq. by destruct Hd as [[Hne _] _].
Qed.

(** The grouping the code computes is the partition by device. *)
Lemma groupedTabs_partition l : groupedTabs l = partition_by_device l.
Proof.
  unfold groupedTabs, partition_by_device.
  rewrite foldl_groupTab by constructor. simpl.
  rewrite filter_all by (intros d ?%elem_of_nil; done).
  by rewrite <- list_fmap_compose.
Qed.

Lemma concat_by_device ks : ∀ l,
  NoDup ks → (∀ tab, tab ∈ l → device_id tab ∈ ks) →
  concat ((λ d, filter (λ tab, device_id tab = d) l) <$> ks) ≡ₚ l.
Proof.
  induction ks as [|k ks IH]; intros l Hnd Hall.
  - destruct l as [|tab l]; [done |].
    exfalso. eapply elem_of_nil, (Hall tab). by left.
  - apply NoDup_cons in Hnd as [Hk Hnd]. rewrite fmap_cons. simpl.
    etrans; [| apply (filter_app_complement (λ tab, device_id tab = k) l)].
    apply Permutation_app_head.
    etrans; [| apply (IH (filter (λ tab, ¬ device_id tab = k) l) Hnd)].
    + apply reflexive_eq. f_equal. apply Forall_fmap_ext_1, Forall_forall.
      intros d Hd. rewrite list_filter_filter. apply list_filter_iff.
      intros tab. split; [| by intros [? _]].
      intros Heq. split; [done |]. intros Heq'. apply Hk. congruence.
    + intros tab [Hne Hin]%list_elem_of_filter.
      specialize (Hall tab Hin). apply elem_of_cons in Hall as [? | ?]; done.
Qed.

Lemma length_concat_groups (gs : list (list Tab)) :
  length (concat gs) = sum_list_with length gs.
Proof.
  induction gs as [|g gs IH]; simpl; [done |]. by rewrite length_app, IH.
Qed.

Lemma sum_list_with_fmap {A B} (f : B → nat) (h : A → B) (xs : list A) :
  sum_list_with f (h <$> xs) = sum_list_with (f ∘ h) xs.
Proof. induction xs as [|x xs IH]; [done |]. rewrite fmap_cons. simpl. by f_equal. Qed.

Lemma tabs_partition l :
  tabs <$> partition_by_device l =
  (λ d, filter (λ tab, device_id tab = d) l) <$> first_occurrences (device_id <$> l).
Proof. unfold partition_by_device. by rewrite <- list_fmap_compose. Qed.

Lemma deviceId_partition l :
  deviceId <$> partition_by_device l = first_occurrences (device_id <$> l).
Proof.
  unfold partition_by_device. rewrite <- list_fmap_compose. apply list_fmap_id.
Qed.

Lemma concat_partition l : concat (tabs <$> partition_by_device l) ≡ₚ l.
Proof.
  rewrite tabs_partition. apply concat_by_device.
  - apply NoDup_first_occurrences.
  - intros tab Hin. apply elem_of_first_occurrences, list_elem_of_fmap. eauto.
Qed.

Lemma elem_of_partition g l :
  g ∈ partition_by_device l ↔
  deviceId g ∈ device_id <$> l ∧
  tabs g = filter (λ tab, device_id tab = deviceId g) l.
Proof.
  unfold partition_by_device. rewrite list_elem_of_fmap. split.
  - intros (d & -> & Hd). rewrite elem_of_first_occurrences in Hd. by simpl.
  - intros [Hd Ht]. exists (deviceId g). rewrite <- Ht.
    split; [by destruct g | by apply elem_of_first_occurrences].
Qed.
End Grouping.

(** ** The presence service *)

Section Presence.
Import SessionService PresenceService.
Variable toISOString : Z → string.
Implicit Types (st : PresenceService.t) (p : TabPresence).

Lemma computeState_rule elapsed isFocused :
  presence_rule elapsed isFocused (computeState elapsed isFocused).
Proof.
  unfold presence_rule, computeState, staleTimeout, idleTimeout, minute.
  repeat case_bool_decide; destruct isFocused; simpl;
    split_and!; split; intros; try done; try lia;
    repeat match goal with
           | H : _ ∧ _ |- _ => destruct H
           | H : _ ∨ _ |- _ => destruct H
           end; try done; try lia.
  all: split; [lia | auto].
Qed.

Lemma updatePresenceState_record now stamp st p :
  tabPresenceSubject st = Some p →
  tabPresenceSubject (updatePresenceState now stamp st).1 =
    Some {| userId := userId p;
            deviceId := deviceId p;
            tabId := tabId p;
            isActive := isTabActiveSubject st;
            lastSeen := stamp;
            userAgent := userAgent p;
            state := computeState (now - lastActivityTime st)
                                  (isTabActiveSubject st) |}.
Proof. intros Hp. unfold updatePresenceState. by rewrite Hp. Qed.

Lemma updatePresenceState_frame now stamp st :
  isTabActiveSubject (updatePresenceState now stamp st).1 = isTabActiveSubject st ∧
  lastActivityTime (updatePresenceState now stamp st).1 = lastActivityTime st ∧
  heartbeats (updatePresenceState now stamp st).1 = heartbeats st.
Proof. unfold updatePresenceState. by destruct (tabPresenceSubject st). Qed.

Lemma updatePresenceState_no_request now stamp st :
  filter is_upsert (updatePresenceState now stamp st).2 = [].
Proof.
  unfold updatePresenceState. destruct (tabPresenceSubject st); [| done].
  simpl. by case_bool_decide.
Qed.

Lemma heartbeatTick_state now stamp error st :
  (heartbeatTick toISOString now stamp error st).1 =
  (updatePresenceState now stamp st).1.
Proof.
  unfold heartbeatTick. by destruct (updatePresenceState now stamp st).
Qed.

Lemma heartbeatTick_out now stamp error st :
  (heartbeatTick toISOString now stamp error st).2 =
  (updatePresenceState now stamp st).2 ++
  upsertPresence toISOString error (updatePresenceState now stamp st).1.
Proof.
  unfold heartbeatTick. by destruct (updatePresenceState now stamp st).
Qed.

Lemma listener_frame ev now st :
  tabPresenceSubject (listener ev now st).1 = tabPresenceSubject st ∧
  heartbeats (listener ev now st).1 = heartbeats st.
Proof. by destruct ev as [| |[]| | |]. Qed.

Lemma step_live i st : live st → live (step toISOString i st).1.
Proof.
  intros [[p Hp] Hhb]. unfold live.
  destruct i as [ev now | now stamp error]; cbn [step].
  - destruct (listener_frame ev now st) as [-> ->]. by split; [exists p |].
  - destruct (heartbeats st) as [|n] eqn:Hn; [done |].
    rewrite heartbeatTick_state. split.
    + rewrite (updatePresenceState_record _ _ _ _ Hp). by eexists.
    + destruct (updatePresenceState_frame now stamp st) as (_ & _ & ->).
      by rewrite Hn.
Qed.

Lemma run_cons i inputs st :
  (run toISOString (i :: inputs) st).1 =
  (run toISOString inputs (step toISOString i st).1).1.
Proof.
  simpl. destruct (step toISOString i st) as [st1 out1]. simpl.
  by destruct (run toISOString inputs st1).
Qed.

Lemma run_live inputs : ∀ st, live st → live (run toISOString inputs st).1.
Proof.
  induction inputs as [|i inputs IH]; intros st Hst; [done |].
  rewrite run_cons. by apply IH, step_live.
Qed.

Lemma step_same_tab i st p :
  tabPresenceSubject st = Some p →
  ∃ p', tabPresenceSubject (step toISOString i st).1 = Some p' ∧ same_tab p' p.
Proof.
  intros Hp. destruct i as [ev now | now stamp error]; cbn [step].
  - destruct (listener_frame ev now st) as [-> _]. by exists p.
  - destruct (heartbeats st); [by exists p |].
    rewrite heartbeatTick_state, (updatePresenceState_record _ _ _ _ Hp).
    by eexists.
Qed.

Lemma run_same_tab inputs : ∀ st p,
  tabPresenceSubject st = Some p →
  ∃ p', tabPresenceSubject (run toISOString inputs st).1 = Some p' ∧ same_tab p' p.
Proof.
  induction inputs as [|i inputs IH]; intros st p Hp; [by exists p |].
  rewrite run_cons.
  destruct (step_same_tab i st p Hp) as (p1 & Hp1 & H1).
  destruct (IH _ _ Hp1) as (p2 & Hp2 & H2).
  exists p2. split; [done |].
  destruct H1 as (? & ? & ? & ?), H2 as (? & ? & ? & ?).
  repeat split; congruence.
Qed.

(** What [initializePresence] leaves when it returns. *)
Lemma initializePresence_returns user stamp error env st st1 env1 out :
  initializePresence toISOString user stamp error env st = Normal (st1, env1, out) →
  ∃ p, tabPresenceSubject st1 = Some p ∧
       userId p = user ∧
       userAgent p = navigator_userAgent env ∧
       isActive p = true ∧ lastSeen p = stamp ∧ state p = Active ∧
       heartbeats st1 = S (heartbeats st) ∧
       filter is_upsert out = [Upsert (upsertRow toISOString p)].
Proof.
  unfold initializePresence.
  destruct (getOrCreateDeviceId _ _) as [[[d ls] g1] | e]; simpl; [| done].
  destruct (getOrCreateTabId _ _) as [[[tb ss] g2] | e]; simpl; [| done].
  intros [= <- <- <-]. eexists. split; [done |]. simpl.
  split_and!; try done. by destruct error.
Qed.

Lemma initializePresence_live user stamp error env st st1 env1 out :
  initializePresence toISOString user stamp error env st = Normal (st1, env1, out) →
  live st1.
Proof.
  intros (p & Hp & _ & _ & _ & _ & _ & Hhb & _)%initializePresence_returns.
  split; [by exists p | by rewrite Hhb].
Qed.

(** One tick of a live service, in full. *)
Lemma tick_live now stamp error st :
  live st →
  ∃ p p',
    tabPresenceSubject st = Some p ∧
    p' = {| userId := userId p;
            deviceId := deviceId p;
            tabId := tabId p;
            isActive := isTabActiveSubject st;
            lastSeen := stamp;
            userAgent := userAgent p;
            state := computeState (now - lastActivityTime st)
                                  (isTabActiveSubject st) |} ∧
    (step toISOString (Tick now stamp error) st).1 =
      set_tabPresence p' st ∧
    (step toISOString (Tick now stamp error) st).2 =
      (updatePresenceState now stamp st).2 ++
      Upsert (upsertRow toISOString p') ::
      match error with
      | Some e => [ConsoleError "Failed to upsert presence:" e]
      | None => []
      end.
Proof.
  intros [[p Hp] Hhb]. exists p. eexists. split; [done |]. split; [done |].
  cbn [step]. destruct (heartbeats st) as [|n]; [done |].
  rewrite heartbeatTick_state, heartbeatTick_out.
  unfold upsertPresence. rewrite (updatePresenceState_record _ _ _ _ Hp).
  split; [| done]. unfold updatePresenceState. by rewrite Hp.
Qed.

Lemma tick_live_requests now stamp error st p' :
  (step toISOString (Tick now stamp error) st).2 =
    (updatePresenceState now stamp st).2 ++
    Upsert (upsertRow toISOString p') ::
    match error with
    | Some e => [ConsoleError "Failed to upsert presence:" e]
    | None => []
    end →
  filter is_upsert (step toISOString (Tick now stamp error) st).2 =
    [Upsert (upsertRow toISOString p')].
Proof.
  intros ->. rewrite filter_app, updatePresenceState_no_request. simpl.
  rewrite filter_cons_True by done. by destruct error.
Qed.
End Presence.

(** C1. At a heartbeat tick read at [now], with
    [elapsed = now - lastActivityTime], the record that
    [updatePresenceState] publishes has state Stale exactly when
    [elapsed] exceeds 30 minutes, Idle exactly when [elapsed] is at most 30
    minutes and either exceeds 5 minutes or the tab is not focused, and
    Active exactly when [elapsed] is at most 5 minutes and the tab is
    focused; so every input gets exactly one of the three states. *)
Theorem updatePresenceState_follows_rule
    (now stamp : Z) (st : PresenceService.t) (p : PresenceService.TabPresence) :
  PresenceService.tabPresenceSubject st = Some p →
  ∃ p', PresenceService.tabPresenceSubject
          (PresenceService.updatePresenceState now stamp st).1 = Some p' ∧
        PresenceService.presence_rule
          (now - PresenceService.lastActivityTime st)
          (PresenceService.isTabActiveSubject st)
          (PresenceService.state p').
Proof.
  intros Hp. eexists. split; [by apply updatePresenceState_record |].
  apply computeState_rule.
Qed.

Lemma updatePresenceState_follows_rule_witness :
  PresenceService.tabPresenceSubject Examples.service = Some Examples.presence ∧
  ∃ p', PresenceService.tabPresenceSubject
          (PresenceService.updatePresenceState
             (Examples.new_year + 31 * PresenceService.minute)
             (Examples.new_year + 31 * PresenceService.minute + 1)
             Examples.service).1 = Some p' ∧
        PresenceService.presence_rule
          (Examples.new_year + 31 * PresenceService.minute
           - PresenceService.lastActivityTime Examples.service)
          (PresenceService.isTabActiveSubject Examples.service)
          (PresenceService.state p').
Proof.
  split; [reflexivity |].
  apply (updatePresenceState_follows_rule _ _ Examples.service Examples.presence).
  reflexivity.
Defined.

(** C3. After [initializePresence] has returned, whatever events and ticks
    came since, a heartbeat tick stores as [lastSeen] the instant read by
    its [new Date()]: the value depends neither on [lastActivityTime], nor
    on the focus flag, nor on the state computed (Stale included). The
    single upsert of the tick carries that same instant as [last_seen]. *)
Theorem heartbeat_stamps_lastSeen
    (toISOString : Z → string) (user : string) (stamp0 : Z)
    (error0 : option JsError) (env env1 : SessionService.Browser)
    (st0 st1 : PresenceService.t) (out1 : list Effect)
    (inputs : list PresenceService.Input)
    (now stamp : Z) (error : option JsError) :
  PresenceService.initializePresence toISOString user stamp0 error0 env st0
    = Normal (st1, env1, out1) →
  let st := (PresenceService.run toISOString inputs st1).1 in
  let tick := PresenceService.step toISOString
                (PresenceService.Tick now stamp error) st in
  ∃ p', PresenceService.tabPresenceSubject tick.1 = Some p' ∧
        PresenceService.lastSeen p' = stamp ∧
        filter PresenceService.is_upsert tick.2 =
          [Upsert (PresenceService.upsertRow toISOString p')] ∧
        row_last_seen (PresenceService.upsertRow toISOString p') =
          toISOString stamp.
Proof.
  intros Hinit st tick.
  assert (PresenceService.live st) as Hlive
    by (eapply run_live, initializePresence_live, Hinit).
  destruct (tick_live toISOString now stamp error st Hlive)
    as (p & p' & Hp & Hp' & Hst & Hout).
  exists p'. subst tick. rewrite Hst. split; [done |].
  split; [by rewrite Hp' |].
  split; [by apply tick_live_requests |]. by rewrite Hp'.
Qed.

Lemma heartbeat_stamps_lastSeen_witness :
  PresenceService.initializePresence Examples.toISOString "user-1"
    Examples.new_year None Examples.browser
    (PresenceService.construct Examples.new_year)
    = Normal (Examples.started.1.1, Examples.started.1.2, Examples.started.2) ∧
  let st := (PresenceService.run Examples.toISOString
               [PresenceService.Event PresenceService.blur
                  (Examples.new_year + 1000)]
               Examples.started.1.1).1 in
  let tick := PresenceService.step Examples.toISOString
                (PresenceService.Tick (Examples.new_year + 30000)
                   Examples.new_year None) st in
  ∃ p', PresenceService.tabPresenceSubject tick.1 = Some p' ∧
        PresenceService.lastSeen p' = Examples.new_year ∧
        filter PresenceService.is_upsert tick.2 =
          [Upsert (PresenceService.upsertRow Examples.toISOString p')] ∧
        row_last_seen (PresenceService.upsertRow Examples.toISOString p') =
          Examples.toISOString Examples.new_year.
Proof.
  split; [vm_compute; reflexivity |].
  apply (heartbeat_stamps_lastSeen Examples.toISOString "user-1"
           Examples.new_year None Examples.browser Examples.started.1.2
           (PresenceService.construct Examples.new_year)
           Examples.started.1.1 Examples.started.2).
  vm_compute; reflexivity.
Defined.

(** C10. A heartbeat tick re-derives the record it finds: the record after
    the tick has the [userId], [deviceId], [tabId] and [userAgent] of the
    record before it, and so of the record made by [initializePresence];
    only [isActive], [lastSeen] and [state] are written anew. *)
Theorem heartbeat_rederives_record
    (toISOString : Z → string) (user : string) (stamp0 : Z)
    (error0 : option JsError) (env env1 : SessionService.Browser)
    (st0 st1 : PresenceService.t) (out1 : list Effect)
    (inputs : list PresenceService.Input)
    (now stamp : Z) (error : option JsError) :
  PresenceService.initializePresence toISOString user stamp0 error0 env st0
    = Normal (st1, env1, out1) →
  let st := (PresenceService.run toISOString inputs st1).1 in
  let tick := PresenceService.step toISOString
                (PresenceService.Tick now stamp error) st in
  ∃ p0 p p',
    PresenceService.tabPresenceSubject st1 = Some p0 ∧
    PresenceService.tabPresenceSubject st = Some p ∧
    PresenceService.tabPresenceSubject tick.1 = Some p' ∧
    PresenceService.same_tab p' p0 ∧
    p' = {| PresenceService.userId := PresenceService.userId p;
            PresenceService.deviceId := PresenceService.deviceId p;
            PresenceService.tabId := PresenceService.tabId p;
            PresenceService.isActive := PresenceService.isActive p';
            PresenceService.lastSeen := PresenceService.lastSeen p';
            PresenceService.userAgent := PresenceService.userAgent p;
            PresenceService.state := PresenceService.state p' |}.
Proof.
  intros Hinit st tick.
  destruct (initializePresence_returns _ _ _ _ _ _ _ _ _ Hinit) as (p0 & Hp0 & _).
  destruct (run_same_tab toISOString inputs _ _ Hp0) as (p & Hp & Hsame).
  assert (PresenceService.live st) as Hlive
    by (eapply run_live, initializePresence_live, Hinit).
  destruct (tick_live toISOString now stamp error st Hlive)
    as (q & p' & Hq & Hp' & Hst & _).
  fold st in Hp. assert (q = p) as -> by congruence.
  exists p0, p, p'. subst tick. rewrite Hst.
  split_and!; try done.
  - destruct Hsame as (? & ? & ? & ?). rewrite Hp'.
    unfold PresenceService.same_tab. simpl. by split_and!.
  - by rewrite Hp'.
Qed.

Lemma heartbeat_rederives_record_witness :
  PresenceService.initializePresence Examples.toISOString "user-1"
    Examples.new_year None Examples.browser
    (PresenceService.construct Examples.new_year)
    = Normal (Examples.started.1.1, Examples.started.1.2, Examples.started.2) ∧
  let st := (PresenceService.run Examples.toISOString
               [PresenceService.Event PresenceService.blur
                  (Examples.new_year + 1000)]
               Examples.started.1.1).1 in
  let tick := PresenceService.step Examples.toISOString
                (PresenceService.Tick (Examples.new_year + 30000)
                   (Examples.new_year + 30001) None) st in
  ∃ p0 p p',
    PresenceService.tabPresenceSubject Examples.started.1.1 = Some p0 ∧
    PresenceService.tabPresenceSubject st = Some p ∧
    PresenceService.tabPresenceSubject tick.1 = Some p' ∧
    PresenceService.same_tab p' p0 ∧
    p' = {| PresenceService.userId := PresenceService.userId p;
            PresenceService.deviceId := PresenceService.deviceId p;
            PresenceService.tabId := PresenceService.tabId p;
            PresenceService.isActive := PresenceService.isActive p';
            PresenceService.lastSeen := PresenceService.lastSeen p';
            PresenceService.userAgent := PresenceService.userAgent p;
            PresenceService.state := PresenceService.state p' |}.
Proof.
  split; [vm_compute; reflexivity |].
  apply (heartbeat_rederives_record Examples.toISOString "user-1"
           Examples.new_year None Examples.browser Examples.started.1.2
           (PresenceService.construct Examples.new_year)
           Examples.started.1.1 Examples.started.2).
  vm_compute; reflexivity.
Defined.

(** C4. In the state reached by any sequence of events and ticks, when the
    clock reads [now]: the listeners of focus gain and of the document
    becoming visible set the focus flag to true and [lastActivityTime] to
    [now]; the listeners of focus loss and of the document becoming hidden
    set the focus flag to false and leave [lastActivityTime] as it was;
    the listeners of mousedown, keydown and touchstart set
    [lastActivityTime] to [now] and leave the focus flag as it was. *)
Theorem listener_effects
    (toISOString : Z → string) (inputs : list PresenceService.Input)
    (st0 : PresenceService.t) (now : Z) :
  let st := (PresenceService.run toISOString inputs st0).1 in
  let focused ev := PresenceService.isTabActiveSubject
                      (PresenceService.listener ev now st).1 in
  let activity ev := PresenceService.lastActivityTime
                       (PresenceService.listener ev now st).1 in
  (focused PresenceService.focus = true ∧
   activity PresenceService.focus = now) ∧
  (focused (PresenceService.visibilitychange PresenceService.visible) = true ∧
   activity (PresenceService.visibilitychange PresenceService.visible) = now) ∧
  (focused PresenceService.blur = false ∧
   activity PresenceService.blur = PresenceService.lastActivityTime st) ∧
  (focused (PresenceService.visibilitychange PresenceService.hidden) = false ∧
   activity (PresenceService.visibilitychange PresenceService.hidden) =
     PresenceService.lastActivityTime st) ∧
  (activity PresenceService.mousedown = now ∧
   focused PresenceService.mousedown = PresenceService.isTabActiveSubject st) ∧
  (activity PresenceService.keydown = now ∧
   focused PresenceService.keydown = PresenceService.isTabActiveSubject st) ∧
  (activity PresenceService.touchstart = now ∧
   focused PresenceService.touchstart = PresenceService.isTabActiveSubject st).
Proof.
  intros st focused activity. subst focused activity. simpl.
  by split_and!.
Qed.

Section Beats.
Import PresenceService.
Variable toISOString : Z → string.
Implicit Types (st : PresenceService.t) (p : TabPresence).




(** With a result that resolved, the subscriber is [heartbeatTick] and its
    promise is fulfilled. *)
Lemma heartbeat_resolved now stamp error st :
  heartbeat toISOString now stamp (UpsertResolved error) st =
  {| after := (heartbeatTick toISOString now stamp error st).1;
     settled := Normal ();
     sent := (heartbeatTick toISOString now stamp error st).2 |}.
Proof.
  unfold heartbeat, heartbeatTick.
  destruct (updatePresenceState now stamp st) as [st1 out1]; reflexivity.
Qed.


End Beats.




(** C8 (the code departs from it). [initializePresence] has no guard on the
    user id: called with the empty string in a browser whose storages
    work, it makes a presence record with [userId = ''], sends an upsert
    of a row with [user_id = ''] and starts the heartbeat, whereas
    [fetchTabs] with the empty string sends no query and reports
    'No user ID provided'. *)
Theorem initializePresence_accepts_empty_user :
  (∃ st1 env1 out p,
     PresenceService.initializePresence Examples.toISOString ""
       Examples.new_year None Examples.browser
       (PresenceService.construct Examples.new_year) = Normal (st1, env1, out) ∧
     PresenceService.tabPresenceSubject st1 = Some p ∧
     PresenceService.userId p = "" ∧
     PresenceService.heartbeats st1 = 1%nat ∧
     out = [Upsert (PresenceService.upsertRow Examples.toISOString p)] ∧
     row_user_id (PresenceService.upsertRow Examples.toISOString p) = "") ∧
  (∀ result,
     TabsStore.fetchTabs "" result TabsStore.construct =
       (TabsStore.set_error (Some "No user ID provided") TabsStore.construct, [])).
Proof.
  split; [| done].
  eexists _, _, _, _. split; [vm_compute; reflexivity |].
  split; [reflexivity |]. by vm_compute.
Qed.

(** ** The session service *)

Section Session.
Import SessionService.

(** The exception of an unavailable storage comes out of the method as it
    is. *)
Lemma getOrCreate_propagates key s g :
  unavailable key s →
  ∃ e, getOrCreate key s g = Throw e ∧
       thrown_by_storage key s e ∧
       (access s = Denied → e = SecurityError) ∧
       (access s = Full → e = QuotaExceededError).
Proof.
  unfold getOrCreate, thrown_by_storage, getItem, setItem, mbind, completion_bind.
  intros [Hd | [Hf Hnone]].
  - exists SecurityError. rewrite Hd. split; [done |]. split; [by left |].
    split; [done | discriminate].
  - exists QuotaExceededError. rewrite Hf, Hnone.
    destruct (generateUUID g) as [id g1]. split; [done |]. split.
    + right. exists (items s !! key). done.
    + split; [discriminate | done].
Qed.

(** With a storage that works: the stored identifier if there is one,
    else a new one, stored under the key. *)
Lemma getOrCreate_granted key s g :
  access s = Granted →
  getOrCreate key s g =
    if truthy (items s !! key)
    then Normal (default "" (items s !! key), s, g)
    else Normal ((generateUUID g).1,
                 {| access := Granted;
                    items := <[key := (generateUUID g).1]> (items s) |},
                 (generateUUID g).2).
Proof.
  intros Hg. unfold getOrCreate, getItem, setItem, mbind, completion_bind.
  rewrite Hg. destruct (truthy (items s !! key)); [done |].
  by destruct (generateUUID g) as [id g1].
Qed.
End Session.

(** C9, as the code has it. When the storage is unavailable (it throws on
    every access, or it cannot store and holds no identifier under the
    key), [getOrCreateDeviceId] and [getOrCreateTabId] catch nothing: each
    ends with the very exception the storage threw, the SecurityError of a
    storage that refuses access or the QuotaExceededError of one that
    cannot store; no identifier is returned, none is generated in memory
    instead. *)
Theorem getOrCreate_unavailable_throws
    (localStorage sessionStorage : SessionService.Storage)
    (g : SessionService.Random) :
  SessionService.unavailable "deviceId" localStorage →
  SessionService.unavailable "tabId" sessionStorage →
  (∃ e, SessionService.getOrCreateDeviceId localStorage g = Throw e ∧
        SessionService.thrown_by_storage "deviceId" localStorage e ∧
        (SessionService.access localStorage = SessionService.Denied →
         e = SessionService.SecurityError) ∧
        (SessionService.access localStorage = SessionService.Full →
         e = SessionService.QuotaExceededError)) ∧
  (∃ e, SessionService.getOrCreateTabId sessionStorage g = Throw e ∧
        SessionService.thrown_by_storage "tabId" sessionStorage e ∧
        (SessionService.access sessionStorage = SessionService.Denied →
         e = SessionService.SecurityError) ∧
        (SessionService.access sessionStorage = SessionService.Full →
         e = SessionService.QuotaExceededError)).
Proof.
  intros Hl Hs. unfold SessionService.getOrCreateDeviceId,
    SessionService.getOrCreateTabId.
  split.
  - exact (getOrCreate_propagates "deviceId" localStorage g Hl).
  - exact (getOrCreate_propagates "tabId" sessionStorage g Hs).
Qed.

Lemma getOrCreate_unavailable_throws_witness :
  SessionService.unavailable "deviceId" Examples.full_storage ∧
  SessionService.unavailable "tabId" Examples.blocked_storage ∧
  SessionService.getOrCreateDeviceId Examples.full_storage Examples.counting
    = Throw SessionService.QuotaExceededError ∧
  SessionService.getOrCreateTabId Examples.blocked_storage Examples.counting
    = Throw SessionService.SecurityError.
Proof.
  assert (SessionService.unavailable "deviceId" Examples.full_storage) as Hl.
  { right. split; reflexivity. }
  assert (SessionService.unavailable "tabId" Examples.blocked_storage) as Hs.
  { left. reflexivity. }
  split; [exact Hl |]. split; [exact Hs |].
  destruct (getOrCreate_unavailable_throws Examples.full_storage
              Examples.blocked_storage Examples.counting Hl Hs)
    as [(e1 & He1 & _ & _ & Hfull) (e2 & He2 & _ & Hdenied & _)].
  split.
  - rewrite He1. f_equal. exact (Hfull eq_refl).
  - rewrite He2. f_equal. exact (Hdenied eq_refl).
Defined.

(** C9, as stated, fails: with a storage that refuses access, neither
    method returns an identifier; both end with the SecurityError. *)
Lemma getOrCreate_blocked_storage_no_identifier :
  SessionService.unavailable "deviceId" Examples.blocked_storage ∧
  SessionService.unavailable "tabId" Examples.blocked_storage ∧
  ¬ (∃ id s g, SessionService.getOrCreateDeviceId Examples.blocked_storage
                 Examples.counting = Normal (id, s, g)) ∧
  ¬ (∃ id s g, SessionService.getOrCreateTabId Examples.blocked_storage
                 Examples.counting = Normal (id, s, g)).
Proof.
  split; [by left |]. split; [by left |].
  split; intros (id & s & g & H); vm_compute in H; discriminate H.
Qed.

(** ** The tab registry *)

(** C2. [getTabState] looks at [last_seen] only. With [age] the time from
    the parsed [last_seen] to [now] (none when [last_seen] is no date): the
    result is Stale exactly when [age] exceeds 30 minutes, Idle exactly
    when it exceeds 5 minutes and not 30, Active in every other case; and
    two records with the same [last_seen] get the same result, whatever
    their [is_active] and other fields. *)
Theorem getTabState_by_last_seen
    (Date_getTime : string → option Z) (now : Z) (tab : TabsStore.Tab) :
  let age := (λ seen, now - seen) <$> Date_getTime (TabsStore.last_seen tab) in
  (TabsStore.getTabState Date_getTime now tab = Stale ↔
     ∃ d, age = Some d ∧ d > 30 * PresenceService.minute) ∧
  (TabsStore.getTabState Date_getTime now tab = Idle ↔
     ∃ d, age = Some d ∧ 5 * PresenceService.minute < d ≤ 30 * PresenceService.minute) ∧
  (TabsStore.getTabState Date_getTime now tab = Active ↔
     age = None ∨ ∃ d, age = Some d ∧ d ≤ 5 * PresenceService.minute) ∧
  (∀ tab', TabsStore.last_seen tab' = TabsStore.last_seen tab →
           TabsStore.getTabState Date_getTime now tab' =
           TabsStore.getTabState Date_getTime now tab).
Proof.
  intros age. split_and!.
  4:{ intros tab' Heq. unfold TabsStore.getTabState. by rewrite Heq. }
  all: unfold TabsStore.getTabState; fold age;
    unfold PresenceService.minute; destruct age as [d |]; simpl;
    repeat case_bool_decide; split; try done; try lia.
  all: try (intros _; eexists; split; [done | lia]).
  all: try (intros (d' & [= <-] & ?); lia).
  all: try (intros [? | (d' & [= <-] & ?)]; [done | lia]).
  all: try (intros _; right; eexists; split; [done | lia]).
  all: try (intros (d' & ? & _); done).
  all: try (intros _; by left).
Qed.

Lemma getTabState_by_last_seen_witness :
  TabsStore.last_seen (Examples.tab "device-1" "tab-1" false) =
  TabsStore.last_seen (Examples.tab "device-2" "tab-2" true) ∧
  TabsStore.getTabState Examples.Date_getTime (Examples.new_year + 1000)
    (Examples.tab "device-1" "tab-1" false) =
  TabsStore.getTabState Examples.Date_getTime (Examples.new_year + 1000)
    (Examples.tab "device-2" "tab-2" true).
Proof.
  split; [reflexivity |].
  apply (getTabState_by_last_seen Examples.Date_getTime
           (Examples.new_year + 1000) (Examples.tab "device-2" "tab-2" true)).
  reflexivity.
Defined.

Section Registry.
Import TabsStore.

Lemma fetchTabs_settle_tabs result st :
  allTabsSignal (fetchTabs_settle result st).1 =
    match result with
    | Resolved (Some data) None => data
    | _ => allTabsSignal st
    end.
Proof. by destruct result as [[data |] [error |] | err]. Qed.

Lemma fetchTabs_settle_failure result st e :
  failure result = Some e →
  errorSignal (fetchTabs_settle result st).1 = Some (message e) ∧
  isLoadingSignal (fetchTabs_settle result st).1 = false ∧
  ∃ line, (fetchTabs_settle result st).2 = [ConsoleError line e].
Proof.
  destruct result as [[data |] [error |] | err]; simpl; intros [= <-];
    split_and!; try done; by eexists.
Qed.

Lemma fetchTabs_sent user result st :
  user ≠ "" →
  (fetchTabs user result st).1 =
    (fetchTabs_settle result (fetchTabs_begin st)).1 ∧
  (fetchTabs user result st).2 =
    Select user :: (fetchTabs_settle result (fetchTabs_begin st)).2.
Proof.
  intros Hu. unfold fetchTabs, truthy.
  rewrite bool_decide_eq_false_2 by done. simpl.
  by destruct (fetchTabs_settle result (fetchTabs_begin st)).
Qed.
End Registry.

(** C6. A fetch for a user that fails, by an error in the result or by a
    rejection, puts the message of the error in the error signal, writes
    it to the console, ends with the loading flag down and leaves the
    collection of tabs as it was; this holds of the part after the await
    from any state, so also when other fetches ran in between. The
    collection changes only when the result carries data and no error,
    and then it becomes that data. *)
Theorem fetchTabs_failure_keeps_tabs
    (user : string) (result : TabsStore.QueryResult) (st : TabsStore.t)
    (e : JsError) :
  user ≠ "" →
  TabsStore.failure result = Some e →
  let fetched := TabsStore.fetchTabs user result st in
  TabsStore.errorSignal fetched.1 = Some (message e) ∧
  TabsStore.allTabsSignal fetched.1 = TabsStore.allTabsSignal st ∧
  TabsStore.isLoadingSignal fetched.1 = false ∧
  (∃ line, fetched.2 = [Select user; ConsoleError line e]) ∧
  (∀ st', TabsStore.allTabsSignal (TabsStore.fetchTabs_settle result st').1 =
          TabsStore.allTabsSignal st') ∧
  (∀ user' result',
     TabsStore.allTabsSignal (TabsStore.fetchTabs user' result' st).1 ≠
       TabsStore.allTabsSignal st →
     ∃ data, result' = TabsStore.Resolved (Some data) None ∧
             TabsStore.allTabsSignal (TabsStore.fetchTabs user' result' st).1 = data).
Proof.
  intros Hu Hfail fetched. subst fetched.
  destruct (fetchTabs_sent user result st Hu) as [-> ->].
  destruct (fetchTabs_settle_failure result (TabsStore.fetchTabs_begin st) e Hfail)
    as (-> & -> & line & ->).
  split_and!; try done.
  - rewrite fetchTabs_settle_tabs.
    by destruct result as [[data |] [error |] | err].
  - by exists line.
  - intros st'. rewrite fetchTabs_settle_tabs.
    by destruct result as [[data |] [error |] | err].
  - intros user' result'. destruct (decide (user' = "")) as [-> | Hu'].
    + simpl. done.
    + destruct (fetchTabs_sent user' result' st Hu') as [-> _].
      rewrite fetchTabs_settle_tabs.
      destruct result' as [[data |] [error |] | err]; simpl; try done.
      intros _. by exists data.
Qed.

Lemma fetchTabs_failure_keeps_tabs_witness :
  "user-1" ≠ "" ∧
  TabsStore.failure (TabsStore.Rejected Examples.network_error)
    = Some Examples.network_error ∧
  let fetched := TabsStore.fetchTabs "user-1"
                   (TabsStore.Rejected Examples.network_error) Examples.store in
  TabsStore.errorSignal fetched.1 = Some (message Examples.network_error) ∧
  TabsStore.allTabsSignal fetched.1 = TabsStore.allTabsSignal Examples.store ∧
  TabsStore.isLoadingSignal fetched.1 = false ∧
  (∃ line, fetched.2 = [Select "user-1"; ConsoleError line Examples.network_error]) ∧
  (∀ st', TabsStore.allTabsSignal
            (TabsStore.fetchTabs_settle
               (TabsStore.Rejected Examples.network_error) st').1 =
          TabsStore.allTabsSignal st') ∧
  (∀ user' result',
     TabsStore.allTabsSignal (TabsStore.fetchTabs user' result' Examples.store).1 ≠
       TabsStore.allTabsSignal Examples.store →
     ∃ data, result' = TabsStore.Resolved (Some data) None ∧
             TabsStore.allTabsSignal
               (TabsStore.fetchTabs user' result' Examples.store).1 = data).
Proof.
  assert ("user-1" ≠ "") as Hu by discriminate.
  split; [exact Hu |]. split; [reflexivity |].
  exact (fetchTabs_failure_keeps_tabs "user-1"
           (TabsStore.Rejected Examples.network_error) Examples.store
           Examples.network_error Hu eq_refl).
Defined.

(** C7. The groups that [groupedTabs] makes of a fetched list are its
    partition by [device_id]: the [deviceId]s of the groups are distinct;
    a group holds exactly the records of its device, in the order of the
    list, and is never empty; every record of the list is in the group of
    its device and in no other, and the groups together hold the records
    of the list, each as often as the list does; the sizes of the groups
    add up to the length of the list; there are as many groups as
    distinct [device_id]s; and the groups come in the order in which
    their devices first occur in the list. *)
Theorem groupedTabs_partitions (allTabs : list TabsStore.Tab) :
  let groups := TabsStore.groupedTabs allTabs in
  groups = TabsStore.partition_by_device allTabs ∧
  NoDup (TabsStore.deviceId <$> groups) ∧
  (∀ g, g ∈ groups →
        TabsStore.tabs g ≠ [] ∧
        TabsStore.tabs g =
          filter (λ tab, TabsStore.device_id tab = TabsStore.deviceId g) allTabs) ∧
  (∀ tab, tab ∈ allTabs →
          ∃ g, g ∈ groups ∧
               TabsStore.deviceId g = TabsStore.device_id tab ∧
               tab ∈ TabsStore.tabs g ∧
               ∀ g', g' ∈ groups → tab ∈ TabsStore.tabs g' → g' = g) ∧
  concat (TabsStore.tabs <$> groups) ≡ₚ allTabs ∧
  sum_list_with (λ g, length (TabsStore.tabs g)) groups = length allTabs ∧
  length groups =
    size (list_to_set (TabsStore.device_id <$> allTabs) : gset string) ∧
  TabsStore.deviceId <$> groups =
    TabsStore.first_occurrences (TabsStore.device_id <$> allTabs).
Proof.
  intros groups. subst groups. rewrite groupedTabs_partition.
  split_and!.
  - done.
  - rewrite deviceId_partition. apply NoDup_first_occurrences.
  - intros g [Hd Ht]%elem_of_partition. split; [| done].
    apply list_elem_of_fmap in Hd as (tab & Hd & Hin).
    intros Hnil. eapply elem_of_nil. rewrite <- Hnil, Ht.
    apply list_elem_of_filter. eauto.
  - intros tab Hin.
    exists {| TabsStore.deviceId := TabsStore.device_id tab;
              TabsStore.tabs :=
                filter (λ t, TabsStore.device_id t = TabsStore.device_id tab)
                       allTabs |}.
    split_and!.
    + apply elem_of_partition. simpl. split; [| done].
      apply list_elem_of_fmap. eauto.
    + done.
    + simpl. by apply list_elem_of_filter.
    + intros [d ts] [Hd Ht]%elem_of_partition Hmem. simpl in *. subst ts.
      apply list_elem_of_filter in Hmem as [<- _]. done.
  - apply concat_partition.
  - rewrite <- (Permutation_length (concat_partition allTabs)).
    by rewrite length_concat_groups, sum_list_with_fmap.
  - rewrite <- (length_fmap TabsStore.deviceId), deviceId_partition.
    rewrite <- (size_list_to_set (C := gset string))
      by apply NoDup_first_occurrences.
    f_equal. apply set_eq. intros d.
    by rewrite !elem_of_list_to_set, elem_of_first_occurrences.
  - apply deviceId_partition.
Qed.

Lemma groupedTabs_partitions_witness :
  Examples.tab "device-1" "tab-3" false ∈ Examples.three_tabs ∧
  length (TabsStore.groupedTabs Examples.three_tabs) = 2%nat ∧
  sum_list_with (λ g, length (TabsStore.tabs g))
    (TabsStore.groupedTabs Examples.three_tabs) = 3%nat ∧
  ∃ g, g ∈ TabsStore.groupedTabs Examples.three_tabs ∧
       TabsStore.deviceId g = "device-1" ∧
       Examples.tab "device-1" "tab-3" false ∈ TabsStore.tabs g ∧
       ∀ g', g' ∈ TabsStore.groupedTabs Examples.three_tabs →
             Examples.tab "device-1" "tab-3" false ∈ TabsStore.tabs g' → g' = g.
Proof.
  assert (Examples.tab "device-1" "tab-3" false ∈ Examples.three_tabs) as Hin.
  { unfold Examples.three_tabs. do 2 apply list_elem_of_further.
    apply list_elem_of_here. }
  split; [exact Hin |]. split; [reflexivity |].
  destruct (groupedTabs_partitions Examples.three_tabs)
    as (_ & _ & _ & Hone & _ & Hsum & _).
  split; [exact Hsum |]. exact (Hone _ Hin).
Defined.


(** * Further properties of the code *)

(** ** Identifiers *)

Section Uuid.
Import SessionService.

Lemma next_draw_range g : 0 ≤ (next_draw g).1 < 16.
Proof. unfold next_draw. simpl. apply Z.mod_pos_bound. lia. Qed.

Lemma next_draw_used g :
  used (next_draw g).2 = S (used g) ∧ draws (next_draw g).2 = draws g.
Proof. done. Qed.

Lemma nibble_cases r :
  0 ≤ r < 16 →
  r ∈ [0; 1; 2; 3; 4; 5; 6; 7; 8; 9; 10; 11; 12; 13; 14; 15].
Proof.
  intros Hr. rewrite !elem_of_cons.
  assert (r = 0 ∨ r = 1 ∨ r = 2 ∨ r = 3 ∨ r = 4 ∨ r = 5 ∨ r = 6 ∨ r = 7 ∨
          r = 8 ∨ r = 9 ∨ r = 10 ∨ r = 11 ∨ r = 12 ∨ r = 13 ∨ r = 14 ∨ r = 15)
    by lia.
  tauto.
Qed.

Lemma uuid_char_x r : 0 ≤ r < 16 → is_hex (uuid_char "x" r).
Proof.
  intros Hr%nibble_cases. unfold is_hex.
  repeat (apply elem_of_cons in Hr as [-> | Hr]; [vm_compute; set_solver |]).
  by apply elem_of_nil in Hr.
Qed.

Lemma uuid_char_y r :
  0 ≤ r < 16 → uuid_char "y" r ∈ String.list_ascii_of_string "89ab".
Proof.
  intros Hr%nibble_cases.
  repeat (apply elem_of_cons in Hr as [-> | Hr]; [vm_compute; set_solver |]).
  by apply elem_of_nil in Hr.
Qed.

Lemma replace_xy_length template : ∀ g,
  String.length (replace_xy template g).1 = String.length template.
Proof.
  induction template as [|c rest IH]; intros g; [done |].
  cbn [replace_xy]. destruct (_ || _).
  - destruct (next_draw g) as [r g1].
    specialize (IH g1). destruct (replace_xy rest g1). simpl in *. by rewrite IH.
  - specialize (IH g). destruct (replace_xy rest g). simpl in *. by rewrite IH.
Qed.

Lemma replace_xy_used template : ∀ g,
  used (replace_xy template g).2 = (used g + placeholders template)%nat ∧
  draws (replace_xy template g).2 = draws g.
Proof.
  induction template as [|c rest IH]; intros g.
  - simpl. split; [lia | done].
  - cbn [replace_xy placeholders]. destruct (_ || _).
    + destruct (next_draw_used g) as [Hu Hd].
      destruct (next_draw g) as [r g1]. simpl in Hu, Hd.
      destruct (IH g1) as [IHu IHd]. destruct (replace_xy rest g1). simpl in *.
      split; [lia | congruence].
    + destruct (IH g) as [IHu IHd]. destruct (replace_xy rest g). simpl in *.
      split; [lia | done].
Qed.

Lemma replace_xy_get template : ∀ g i c,
  String.get i template = Some c →
  ∃ c', String.get i (replace_xy template g).1 = Some c' ∧
        (c = "x"%char → is_hex c') ∧
        (c = "y"%char → c' ∈ String.list_ascii_of_string "89ab") ∧
        (c ≠ "x"%char → c ≠ "y"%char → c' = c).
Proof.
  induction template as [|c0 rest IH]; intros g i c Hget; [done |].
  cbn [replace_xy].
  destruct (bool_decide (c0 = "x"%char) || bool_decide (c0 = "y"%char)) eqn:Hxy.
  - pose proof (next_draw_range g) as Hr. destruct (next_draw g) as [r g1].
    simpl in Hr. destruct i as [|i].
    + simpl in Hget. injection Hget as <-.
      destruct (replace_xy rest g1). simpl. eexists. split; [done |].
      split_and!.
      * intros ->. by apply uuid_char_x.
      * intros ->. by apply uuid_char_y.
      * intros Hx Hy. apply orb_true_iff in Hxy as [?%bool_decide_eq_true | ?%bool_decide_eq_true]; done.
    + simpl in Hget. destruct (IH g1 i c Hget) as (c' & Hc' & H).
      destruct (replace_xy rest g1). simpl in *. by exists c'.
  - apply orb_false_iff in Hxy as [Hx%bool_decide_eq_false Hy%bool_decide_eq_false].
    destruct i as [|i].
    + simpl in Hget. injection Hget as <-.
      destruct (replace_xy rest g). simpl. by exists c0.
    + simpl in Hget. destruct (IH g i c Hget) as (c' & Hc' & H).
      destruct (replace_xy rest g). simpl in *. by exists c'.
Qed.

Lemma generateUUID_length g : String.length (generateUUID g).1 = 36%nat.
Proof. exact (replace_xy_length "xxxxxxxx-xxxx-4xxx-yxxx-xxxxxxxxxxxx" g). Qed.

Lemma generateUUID_used g : used (generateUUID g).2 = (used g + 31)%nat.
Proof.
  exact (proj1 (replace_xy_used "xxxxxxxx-xxxx-4xxx-yxxx-xxxxxxxxxxxx" g)).
Qed.

Lemma generateUUID_get g i c :
  String.get i "xxxxxxxx-xxxx-4xxx-yxxx-xxxxxxxxxxxx" = Some c →
  ∃ c', String.get i (generateUUID g).1 = Some c' ∧
        (c = "x"%char → is_hex c') ∧
        (c = "y"%char → c' ∈ String.list_ascii_of_string "89ab") ∧
        (c ≠ "x"%char → c ≠ "y"%char → c' = c).
Proof. exact (replace_xy_get "xxxxxxxx-xxxx-4xxx-yxxx-xxxxxxxxxxxx" g i c). Qed.

Lemma generateUUID_nonempty g : (generateUUID g).1 ≠ "".
Proof.
  intros Heq. pose proof (generateUUID_length g) as H.
  rewrite Heq in H. discriminate H.
Qed.
End Uuid.

(** From here on the identifier is used through the lemmas above. *)
Opaque SessionService.generateUUID.

(** X1. Whatever [Math.random] gives, [generateUUID] returns 36
    characters of the shape of a version 4 UUID: hyphens at positions 8,
    13, 18 and 23, the digit 4 at position 14, one of 8, 9, a, b at
    position 19, lower-case hexadecimal digits everywhere else; it calls
    [Math.random] 31 times. *)
Theorem generateUUID_shape (g : SessionService.Random) :
  let id := (SessionService.generateUUID g).1 in
  String.length id = 36%nat ∧
  String.get 8 id = Some "-"%char ∧ String.get 13 id = Some "-"%char ∧
  String.get 18 id = Some "-"%char ∧ String.get 23 id = Some "-"%char ∧
  String.get 14 id = Some "4"%char ∧
  (∃ c, String.get 19 id = Some c ∧ c ∈ String.list_ascii_of_string "89ab") ∧
  (∀ i, (i < 36)%nat → i ∉ [8; 13; 14; 18; 19; 23]%nat →
        ∃ c, String.get i id = Some c ∧ SessionService.is_hex c) ∧
  SessionService.used (SessionService.generateUUID g).2 =
    (SessionService.used g + 31)%nat.
Proof.
  intros id. subst id.
  assert (∀ i c, String.get i "xxxxxxxx-xxxx-4xxx-yxxx-xxxxxxxxxxxx" = Some c →
                 c ≠ "x"%char → c ≠ "y"%char →
                 String.get i (SessionService.generateUUID g).1 = Some c)
    as Hfixed.
  { intros i c Hget Hx Hy.
    destruct (generateUUID_get g i c Hget) as (c' & -> & _ & _ & Heq).
    by rewrite Heq. }
  split_and!.
  - apply generateUUID_length.
  - by apply Hfixed.
  - by apply Hfixed.
  - by apply Hfixed.
  - by apply Hfixed.
  - by apply Hfixed.
  - destruct (generateUUID_get g 19 "y"%char eq_refl) as (c' & Hc' & _ & Hy & _).
    exists c'. split; [done | by apply Hy].
  - intros i Hi Hnot.
    assert (String.get i "xxxxxxxx-xxxx-4xxx-yxxx-xxxxxxxxxxxx" = Some "x"%char)
      as Hget.
    { do 36 (destruct i as [|i];
             [first [reflexivity
                    | exfalso; apply Hnot;
                      repeat first [apply list_elem_of_here
                                   | apply list_elem_of_further]] |]).
      lia. }
    destruct (generateUUID_get g i "x"%char Hget) as (c' & Hc' & Hx & _).
    exists c'. split; [done | by apply Hx].
  - apply generateUUID_used.
Qed.

Lemma generateUUID_shape_witness :
  (5 < 36)%nat ∧ (5%nat ∉ [8; 13; 14; 18; 19; 23]%nat) ∧
  ∃ c, String.get 5 (SessionService.generateUUID Examples.counting).1 = Some c ∧
       SessionService.is_hex c.
Proof.
  assert ((5 < 36)%nat) as Hlt by lia.
  assert (5%nat ∉ [8; 13; 14; 18; 19; 23]%nat) as Hnot.
  { rewrite !not_elem_of_cons. repeat split; try discriminate.
    apply not_elem_of_nil. }
  split; [exact Hlt |]. split; [exact Hnot |].
  destruct (generateUUID_shape Examples.counting)
    as (_ & _ & _ & _ & _ & _ & _ & Hhex & _).
  exact (Hhex 5%nat Hlt Hnot).
Defined.

Section StoredIds.
Import SessionService.

Lemma getOrCreate_normal key s g :
  access s = Granted →
  getOrCreate key s g =
    Normal (if truthy (items s !! key)
            then (default "" (items s !! key), s, g)
            else ((generateUUID g).1,
                  {| access := Granted;
                     items := <[key := (generateUUID g).1]> (items s) |},
                  (generateUUID g).2)).
Proof.
  intros Hg. rewrite (getOrCreate_granted _ _ _ Hg).
  by destruct (truthy (items s !! key)).
Qed.

Lemma truthy_Some id : id ≠ "" → truthy (Some id) = true.
Proof. intros Hne. unfold truthy. by rewrite bool_decide_eq_false_2. Qed.

Lemma truthy_inv v : truthy v = true → ∃ id, v = Some id ∧ id ≠ "".
Proof.
  destruct v as [id |]; simpl; [| done]. case_bool_decide; [done |]. by exists id.
Qed.
End StoredIds.

(** X2. With a storage that works, [getOrCreateDeviceId] and
    [getOrCreateTabId] (the same body, on the keys 'deviceId' and 'tabId')
    return an identifier that is not empty and is, after the call, what
    the storage holds under the key. A stored value that is not empty is
    returned as it is, with the storage untouched and [Math.random] not
    called; a missing or empty one is replaced by a new UUID. Every later
    call on the resulting storage returns the same identifier and changes
    nothing, and no other key of the storage is touched. *)
Theorem getOrCreate_keeps_identifier
    (key : string) (s s' : SessionService.Storage)
    (g g' : SessionService.Random) (id : string) :
  SessionService.access s = SessionService.Granted →
  SessionService.getOrCreate key s g = Normal (id, s', g') →
  id ≠ "" ∧
  SessionService.access s' = SessionService.Granted ∧
  SessionService.items s' !! key = Some id ∧
  (truthy (SessionService.items s !! key) = true →
     SessionService.items s !! key = Some id ∧ s' = s ∧ g' = g) ∧
  (truthy (SessionService.items s !! key) = false →
     id = (SessionService.generateUUID g).1 ∧
     SessionService.used g' = (SessionService.used g + 31)%nat) ∧
  (∀ g2, SessionService.getOrCreate key s' g2 = Normal (id, s', g2)) ∧
  (∀ key', key' ≠ key →
     SessionService.items s' !! key' = SessionService.items s !! key').
Proof.
  intros Hg. rewrite (getOrCreate_normal _ _ _ Hg).
  destruct (truthy (SessionService.items s !! key)) eqn:Ht.
  - intros [= <- <- <-].
    destruct (truthy_inv _ Ht) as (id & Hid & Hne). rewrite Hid. simpl.
    split_and!; try done.
    intros g2. rewrite (getOrCreate_normal _ _ _ Hg), Ht, Hid. done.
  - pose proof (generateUUID_nonempty g) as Hne.
    pose proof (generateUUID_used g) as Hused.
    destruct (SessionService.generateUUID g) as [uuid g1]. simpl in Hne, Hused.
    intros [= <- <- <-]. simpl.
    split_and!; try done.
    + apply lookup_insert_eq.
    + intros g2. rewrite getOrCreate_normal by done. simpl.
      rewrite lookup_insert_eq, (truthy_Some _ Hne). done.
    + intros key' Hk. by apply lookup_insert_ne.
Qed.

Lemma getOrCreate_keeps_identifier_witness :
  SessionService.access Examples.empty_storage = SessionService.Granted ∧
  ∃ id s' g',
    SessionService.getOrCreate "deviceId" Examples.empty_storage Examples.counting
      = Normal (id, s', g') ∧
    id ≠ "" ∧
    ∀ g2, SessionService.getOrCreate "deviceId" s' g2 = Normal (id, s', g2).
Proof.
  split; [reflexivity |].
  pose proof (getOrCreate_normal "deviceId" Examples.empty_storage
                Examples.counting eq_refl) as Hcall.
  change (truthy (SessionService.items Examples.empty_storage !! "deviceId"))
    with false in Hcall.
  cbv iota in Hcall.
  eexists _, _, _. split; [exact Hcall |].
  destruct (getOrCreate_keeps_identifier "deviceId" Examples.empty_storage
              _ Examples.counting _ _ eq_refl Hcall)
    as (Hne & _ & _ & _ & _ & Hagain & _).
  split; [exact Hne | exact Hagain].
Defined.

(** ** The presence machine over time *)

Section PresenceOverTime.
Import PresenceService.
Variable toISOString : Z → string.
Implicit Types (st : PresenceService.t).

Lemma step_tick_frame now stamp error st :
  isTabActiveSubject (step toISOString (Tick now stamp error) st).1 =
    isTabActiveSubject st ∧
  lastActivityTime (step toISOString (Tick now stamp error) st).1 =
    lastActivityTime st.
Proof.
  cbn [step]. destruct (heartbeats st); [done |].
  rewrite heartbeatTick_state.
  by destruct (updatePresenceState_frame now stamp st) as (-> & -> & _).
Qed.

Lemma run_ticks_frame inputs : ∀ st,
  Forall (λ i, is_event i = false) inputs →
  isTabActiveSubject (run toISOString inputs st).1 = isTabActiveSubject st ∧
  lastActivityTime (run toISOString inputs st).1 = lastActivityTime st.
Proof.
  induction inputs as [|i inputs IH]; intros st Hall; [done |].
  apply Forall_cons in Hall as [Hi Hall]. rewrite run_cons.
  destruct (IH (step toISOString i st).1 Hall) as [-> ->].
  destruct i as [ev t | now stamp error]; [done |]. apply step_tick_frame.
Qed.

Lemma run_unfocused inputs : ∀ st,
  isTabActiveSubject st = false →
  Forall (λ i, refocus i = false) inputs →
  isTabActiveSubject (run toISOString inputs st).1 = false.
Proof.
  induction inputs as [|i inputs IH]; intros st Hf Hall; [done |].
  apply Forall_cons in Hall as [Hi Hall]. rewrite run_cons.
  apply IH; [| done].
  destruct i as [ev t | now stamp error].
  - by destruct ev as [| |[]| | |].
  - by destruct (step_tick_frame now stamp error st) as [-> _].
Qed.

Lemma computeState_monotone e1 e2 isFocused :
  e1 ≤ e2 →
  (severity (computeState e1 isFocused) ≤ severity (computeState e2 isFocused))%nat.
Proof.
  intros He. unfold computeState, staleTimeout, idleTimeout.
  repeat case_bool_decide; destruct isFocused; simpl; lia.
Qed.

Lemma computeState_active elapsed :
  elapsed ≤ 5 * minute → computeState elapsed true = Active.
Proof. intros He. by apply (computeState_rule elapsed true). Qed.

Lemma computeState_unfocused elapsed : computeState elapsed false ≠ Active.
Proof.
  intros Heq. apply (computeState_rule elapsed false) in Heq as [_ ?]. done.
Qed.

Lemma tick_published now stamp error st :
  live st →
  ∃ p', tabPresenceSubject (step toISOString (Tick now stamp error) st).1 = Some p' ∧
        state p' = computeState (now - lastActivityTime st) (isTabActiveSubject st) ∧
        isActive p' = isTabActiveSubject st ∧
        lastSeen p' = stamp ∧
        filter is_upsert (step toISOString (Tick now stamp error) st).2 =
          [Upsert (upsertRow toISOString p')].
Proof.
  intros Hlive.
  destruct (tick_live toISOString now stamp error st Hlive)
    as (p & p' & Hp & Hp' & Hst & Hout).
  exists p'. rewrite Hst. split; [done |].
  split_and!; try (by rewrite Hp'). by apply tick_live_requests.
Qed.
End PresenceOverTime.

(** X3. Activity brings a tab back to Active, whatever its state was
    (Stale included): after the listener of a focus gain or of the
    document becoming visible at the instant [t], and after the listener
    of a mousedown, keydown or touchstart at [t] in a tab that has the
    focus, a heartbeat tick that comes next (no other event in between)
    and is read within 5 minutes of [t] publishes a record that is
    Active, with [isActive] true. *)
Theorem activity_restores_active
    (toISOString : Z → string) (st : PresenceService.t)
    (ev : PresenceService.ActivityEvent) (t now stamp : Z)
    (error : option JsError) :
  PresenceService.live st →
  ev = PresenceService.focus ∨
  ev = PresenceService.visibilitychange PresenceService.visible ∨
  (PresenceService.isTabActiveSubject st = true ∧
   ev ∈ [PresenceService.mousedown; PresenceService.keydown;
         PresenceService.touchstart]) →
  now - t ≤ 5 * PresenceService.minute →
  let st1 := (PresenceService.listener ev t st).1 in
  ∃ p', PresenceService.tabPresenceSubject
          (PresenceService.step toISOString
             (PresenceService.Tick now stamp error) st1).1 = Some p' ∧
        PresenceService.state p' = Active ∧
        PresenceService.isActive p' = true.
Proof.
  intros Hlive Hev Hnow st1.
  assert (PresenceService.live st1) as Hlive1.
  { apply (step_live toISOString (PresenceService.Event ev t) st Hlive). }
  assert (PresenceService.isTabActiveSubject st1 = true ∧
          PresenceService.lastActivityTime st1 = t) as [Hf Ht].
  { subst st1. destruct Hev as [-> | [-> | [Hfocus Hev]]]; [done | done |].
    rewrite !elem_of_cons in Hev.
    destruct Hev as [-> | [-> | [-> | []%elem_of_nil]]]; done. }
  destruct (tick_published toISOString now stamp error st1 Hlive1)
    as (p' & Hp' & Hstate & Hactive & _).
  exists p'. split; [done |]. rewrite Hstate, Hactive, Hf, Ht.
  split; [by apply computeState_active | done].
Qed.

Lemma activity_restores_active_witness :
  PresenceService.live Examples.service ∧
  (PresenceService.keydown = PresenceService.focus ∨
   PresenceService.keydown =
     PresenceService.visibilitychange PresenceService.visible ∨
   (PresenceService.isTabActiveSubject Examples.service = true ∧
    PresenceService.keydown ∈
      [PresenceService.mousedown; PresenceService.keydown;
       PresenceService.touchstart])) ∧
  (Examples.new_year + 31 * PresenceService.minute + 30000)
    - (Examples.new_year + 31 * PresenceService.minute)
    ≤ 5 * PresenceService.minute ∧
  ∃ p', PresenceService.tabPresenceSubject
          (PresenceService.step Examples.toISOString
             (PresenceService.Tick
                (Examples.new_year + 31 * PresenceService.minute + 30000)
                Examples.new_year None)
             (PresenceService.listener PresenceService.keydown
                (Examples.new_year + 31 * PresenceService.minute)
                Examples.service).1).1 = Some p' ∧
        PresenceService.state p' = Active ∧
        PresenceService.isActive p' = true.
Proof.
  assert (PresenceService.live Examples.service) as Hlive.
  { split; [by eexists | by compute]. }
  assert (PresenceService.keydown = PresenceService.focus ∨
          PresenceService.keydown =
            PresenceService.visibilitychange PresenceService.visible ∨
          (PresenceService.isTabActiveSubject Examples.service = true ∧
           PresenceService.keydown ∈
             [PresenceService.mousedown; PresenceService.keydown;
              PresenceService.touchstart])) as Hev.
  { right. right. split; [reflexivity |].
    apply list_elem_of_further, list_elem_of_here. }
  assert ((Examples.new_year + 31 * PresenceService.minute + 30000)
          - (Examples.new_year + 31 * PresenceService.minute)
          ≤ 5 * PresenceService.minute) as Hnow by (by compute).
  split; [exact Hlive |]. split; [exact Hev |]. split; [exact Hnow |].
  exact (activity_restores_active Examples.toISOString Examples.service
           PresenceService.keydown _ _ Examples.new_year None Hlive Hev Hnow).
Defined.

(** X4. Focus is regained through a focus gain or the document becoming
    visible only: from a tab without focus, through any events and ticks
    that hold neither of the two (clicks, keys and touches included), the
    focus flag stays false, and every heartbeat tick publishes a record
    that is not Active and has [isActive] false. *)
Theorem unfocused_tab_is_never_active
    (toISOString : Z → string) (st : PresenceService.t)
    (inputs : list PresenceService.Input) (now stamp : Z)
    (error : option JsError) :
  PresenceService.live st →
  PresenceService.isTabActiveSubject st = false →
  Forall (λ i, PresenceService.refocus i = false) inputs →
  let st1 := (PresenceService.run toISOString inputs st).1 in
  PresenceService.isTabActiveSubject st1 = false ∧
  ∃ p', PresenceService.tabPresenceSubject
          (PresenceService.step toISOString
             (PresenceService.Tick now stamp error) st1).1 = Some p' ∧
        PresenceService.state p' ≠ Active ∧
        PresenceService.isActive p' = false.
Proof.
  intros Hlive Hf Hall st1.
  assert (PresenceService.isTabActiveSubject st1 = false) as Hf1
    by (by apply run_unfocused).
  split; [done |].
  assert (PresenceService.live st1) as Hlive1 by (by apply run_live).
  destruct (tick_published toISOString now stamp error st1 Hlive1)
    as (p' & Hp' & Hstate & Hactive & _).
  exists p'. split; [done |]. rewrite Hstate, Hactive, Hf1.
  split; [apply computeState_unfocused | done].
Qed.

Lemma unfocused_tab_is_never_active_witness :
  PresenceService.live
    (PresenceService.listener PresenceService.blur Examples.new_year
       Examples.service).1 ∧
  PresenceService.isTabActiveSubject
    (PresenceService.listener PresenceService.blur Examples.new_year
       Examples.service).1 = false ∧
  Forall (λ i, PresenceService.refocus i = false)
    [PresenceService.Event PresenceService.keydown (Examples.new_year + 1000)] ∧
  let st1 := (PresenceService.run Examples.toISOString
                [PresenceService.Event PresenceService.keydown
                   (Examples.new_year + 1000)]
                (PresenceService.listener PresenceService.blur Examples.new_year
                   Examples.service).1).1 in
  PresenceService.isTabActiveSubject st1 = false ∧
  ∃ p', PresenceService.tabPresenceSubject
          (PresenceService.step Examples.toISOString
             (PresenceService.Tick (Examples.new_year + 2000)
                Examples.new_year None) st1).1 = Some p' ∧
        PresenceService.state p' ≠ Active ∧
        PresenceService.isActive p' = false.
Proof.
  assert (PresenceService.live
            (PresenceService.listener PresenceService.blur Examples.new_year
               Examples.service).1) as Hlive.
  { split; [by eexists | by compute]. }
  assert (Forall (λ i, PresenceService.refocus i = false)
            [PresenceService.Event PresenceService.keydown
               (Examples.new_year + 1000)]) as Hall.
  { apply Forall_cons. split; [reflexivity | apply Forall_nil_2]. }
  split; [exact Hlive |]. split; [reflexivity |]. split; [exact Hall |].
  exact (unfocused_tab_is_never_active Examples.toISOString _ _
           (Examples.new_year + 2000) Examples.new_year None
           Hlive eq_refl Hall).
Defined.

Section Sampling.
Import PresenceService.
Variable toISOString : Z → string.

Lemma run_out_cons i inputs st :
  (run toISOString (i :: inputs) st).2 =
  (step toISOString i st).2 ++ (run toISOString inputs (step toISOString i st).1).2.
Proof.
  simpl. destruct (step toISOString i st) as [st1 out1]. simpl.
  by destruct (run toISOString inputs st1).
Qed.

Lemma run_events_frame inputs : ∀ st,
  Forall (λ i, is_event i = true) inputs →
  tabPresenceSubject (run toISOString inputs st).1 = tabPresenceSubject st ∧
  filter is_upsert (run toISOString inputs st).2 = [].
Proof.
  induction inputs as [|i inputs IH]; intros st Hall; [done |].
  apply Forall_cons in Hall as [Hi Hall].
  rewrite run_cons, run_out_cons, filter_app.
  destruct (IH (step toISOString i st).1 Hall) as [-> ->].
  destruct i as [ev t | now stamp error]; [| done]. cbn [step].
  destruct (listener_frame ev t st) as [-> _].
  split; [done |]. by destruct ev as [| |[]| | |].
Qed.
End Sampling.

(** X5. The state is sampled at the ticks only. Events alone, however
    many, publish no record and send no upsert; and a focus loss undone
    by a focus gain before the next tick leaves no trace: the service is
    then as if the focus gain had come alone, so the tick publishes the
    same record and sends the same upsert. *)
Theorem events_alone_publish_nothing
    (toISOString : Z → string) (st : PresenceService.t)
    (events : list PresenceService.Input) (t1 t2 : Z) :
  Forall (λ i, PresenceService.is_event i = true) events →
  PresenceService.tabPresenceSubject
    (PresenceService.run toISOString events st).1
    = PresenceService.tabPresenceSubject st ∧
  filter PresenceService.is_upsert
    (PresenceService.run toISOString events st).2 = [] ∧
  (PresenceService.run toISOString
     [PresenceService.Event PresenceService.blur t1;
      PresenceService.Event PresenceService.focus t2] st).1
  = (PresenceService.listener PresenceService.focus t2 st).1.
Proof.
  intros Hall.
  destruct (run_events_frame toISOString events st Hall) as [Hp Hout].
  split; [done |]. split; [done |]. done.
Qed.

Lemma events_alone_publish_nothing_witness :
  Forall (λ i, PresenceService.is_event i = true)
    [PresenceService.Event PresenceService.blur Examples.new_year;
     PresenceService.Event PresenceService.keydown (Examples.new_year + 1)] ∧
  PresenceService.tabPresenceSubject
    (PresenceService.run Examples.toISOString
       [PresenceService.Event PresenceService.blur Examples.new_year;
        PresenceService.Event PresenceService.keydown (Examples.new_year + 1)]
       Examples.service).1
    = PresenceService.tabPresenceSubject Examples.service.
Proof.
  assert (Forall (λ i, PresenceService.is_event i = true)
            [PresenceService.Event PresenceService.blur Examples.new_year;
             PresenceService.Event PresenceService.keydown
               (Examples.new_year + 1)]) as Hall.
  { repeat (apply Forall_cons; split; [reflexivity |]). apply Forall_nil_2. }
  split; [exact Hall |].
  destruct (events_alone_publish_nothing Examples.toISOString Examples.service
              _ 0 0 Hall) as (Hp & _).
  exact Hp.
Defined.

(** X6. A tab left alone only ages: between two heartbeat ticks with
    nothing but other ticks in between and a clock that did not go back,
    the state published by the second is the state published by the first
    or a later one in the order Active, Idle, Stale. *)
Theorem presence_only_ages
    (toISOString : Z → string) (st : PresenceService.t)
    (ticks : list PresenceService.Input)
    (now1 stamp1 now2 stamp2 : Z) (error1 error2 : option JsError) :
  PresenceService.live st →
  Forall (λ i, PresenceService.is_event i = false) ticks →
  now1 ≤ now2 →
  let first := PresenceService.step toISOString
                 (PresenceService.Tick now1 stamp1 error1) st in
  let between := (PresenceService.run toISOString ticks first.1).1 in
  let second := PresenceService.step toISOString
                  (PresenceService.Tick now2 stamp2 error2) between in
  ∃ p1 p2,
    PresenceService.tabPresenceSubject first.1 = Some p1 ∧
    PresenceService.tabPresenceSubject second.1 = Some p2 ∧
    (PresenceService.severity (PresenceService.state p1)
     ≤ PresenceService.severity (PresenceService.state p2))%nat.
Proof.
  intros Hlive Hticks Hnow first between second.
  assert (PresenceService.live first.1) as Hlive1 by (by apply step_live).
  assert (PresenceService.live between) as Hlive2 by (by apply run_live).
  destruct (tick_published toISOString now1 stamp1 error1 st Hlive)
    as (p1 & Hp1 & Hs1 & _).
  destruct (tick_published toISOString now2 stamp2 error2 between Hlive2)
    as (p2 & Hp2 & Hs2 & _).
  exists p1, p2. split; [done |]. split; [done |].
  rewrite Hs1, Hs2.
  destruct (run_ticks_frame toISOString ticks first.1 Hticks) as [Hf Ht].
  fold between in Hf, Ht. rewrite Hf, Ht.
  destruct (step_tick_frame toISOString now1 stamp1 error1 st) as [Hf1 Ht1].
  fold first in Hf1, Ht1. rewrite Hf1, Ht1.
  apply computeState_monotone. lia.
Qed.

Lemma presence_only_ages_witness :
  PresenceService.live Examples.service ∧
  Forall (λ i, PresenceService.is_event i = false)
    [PresenceService.Tick (Examples.new_year + 60000) Examples.new_year None] ∧
  Examples.new_year + 30000 ≤ Examples.new_year + 6 * PresenceService.minute ∧
  let first := PresenceService.step Examples.toISOString
                 (PresenceService.Tick (Examples.new_year + 30000)
                    Examples.new_year None) Examples.service in
  let between := (PresenceService.run Examples.toISOString
                    [PresenceService.Tick (Examples.new_year + 60000)
                       Examples.new_year None] first.1).1 in
  let second := PresenceService.step Examples.toISOString
                  (PresenceService.Tick
                     (Examples.new_year + 6 * PresenceService.minute)
                     Examples.new_year None) between in
  ∃ p1 p2,
    PresenceService.tabPresenceSubject first.1 = Some p1 ∧
    PresenceService.tabPresenceSubject second.1 = Some p2 ∧
    (PresenceService.severity (PresenceService.state p1)
     ≤ PresenceService.severity (PresenceService.state p2))%nat.
Proof.
  assert (PresenceService.live Examples.service) as Hlive.
  { split; [by eexists | by compute]. }
  assert (Forall (λ i, PresenceService.is_event i = false)
            [PresenceService.Tick (Examples.new_year + 60000)
               Examples.new_year None]) as Hticks.
  { apply Forall_cons. split; [reflexivity | apply Forall_nil_2]. }
  assert (Examples.new_year + 30000
          ≤ Examples.new_year + 6 * PresenceService.minute) as Hnow
    by (by compute).
  split; [exact Hlive |]. split; [exact Hticks |]. split; [exact Hnow |].
  exact (presence_only_ages Examples.toISOString Examples.service _
           _ Examples.new_year _ Examples.new_year None None
           Hlive Hticks Hnow).
Defined.

(** X7. A heartbeat tick recomputes from the clock, the activity time and
    the focus flag alone: run again with the same clock readings it leaves
    the service as the first run did, and the second run writes no state
    transition to the console, only its upsert (and the error line, if
    that upsert fails). *)
Theorem heartbeatTick_twice
    (toISOString : Z → string) (st : PresenceService.t)
    (now stamp : Z) (error error' : option JsError) :
  let once := PresenceService.heartbeatTick toISOString now stamp error st in
  let twice := PresenceService.heartbeatTick toISOString now stamp error' once.1 in
  twice.1 = once.1 ∧
  twice.2 = PresenceService.upsertPresence toISOString error' once.1.
Proof.
  intros once twice. subst once twice.
  assert (PresenceService.updatePresenceState now stamp
            (PresenceService.updatePresenceState now stamp st).1 =
          ((PresenceService.updatePresenceState now stamp st).1, [])) as Hagain.
  { unfold PresenceService.updatePresenceState.
    destruct (PresenceService.tabPresenceSubject st) as [p |] eqn:Hp; simpl.
    - rewrite bool_decide_eq_true_2 by done. done.
    - rewrite Hp. done. }
  rewrite !heartbeatTick_state, heartbeatTick_out, ?heartbeatTick_state.
  by rewrite Hagain.
Qed.

Section Initialising.
Import SessionService PresenceService.
Variable toISOString : Z → string.

Lemma getOrCreate_returns key s g :
  access s = Granted → ∃ id s' g', getOrCreate key s g = Normal (id, s', g').
Proof.
  intros Hg. rewrite (getOrCreate_normal _ _ _ Hg).
  destruct (truthy (items s !! key)); by eexists _, _, _.
Qed.

(** [initializePresence] in a browser whose storages work. *)
Lemma initializePresence_granted user stamp error env st :
  access (localStorage env) = Granted →
  access (sessionStorage env) = Granted →
  ∃ d ls g1 tb ss g2,
    getOrCreate "deviceId" (localStorage env) (random env) = Normal (d, ls, g1) ∧
    getOrCreate "tabId" (sessionStorage env) g1 = Normal (tb, ss, g2) ∧
    initializePresence toISOString user stamp error env st =
      Normal
        (startHeartbeat
           (set_tabPresence
              {| userId := user; deviceId := d; tabId := tb; isActive := true;
                 lastSeen := stamp; userAgent := navigator_userAgent env;
                 state := Active |} st),
         {| localStorage := ls; sessionStorage := ss;
            navigator_userAgent := navigator_userAgent env; random := g2 |},
         upsertPresence toISOString error
           (set_tabPresence
              {| userId := user; deviceId := d; tabId := tb; isActive := true;
                 lastSeen := stamp; userAgent := navigator_userAgent env;
                 state := Active |} st)).
Proof.
  intros Hl Hs.
  destruct (getOrCreate_returns "deviceId" _ (random env) Hl) as (d & ls & g1 & Hd).
  destruct (getOrCreate_returns "tabId" _ g1 Hs) as (tb & ss & g2 & Ht).
  exists d, ls, g1, tb, ss, g2. split; [done |]. split; [done |].
  unfold initializePresence, getOrCreateDeviceId, getOrCreateTabId.
  rewrite Hd. unfold mbind at 1. unfold completion_bind at 1. cbv beta iota.
  rewrite Ht. done.
Qed.
End Initialising.

(** X8. [initializePresence] called again in a browser whose storages work
    (as when the user is published twice) finds the identifiers of the
    first call: the new record has the same [deviceId] and [tabId], so its
    upsert goes to the same row when the user is the same; the storages
    and the random supply are left as the first call left them. The
    record starts over as Active, and one more heartbeat runs beside the
    first: the call stops none. *)
Theorem initializePresence_again
    (toISOString : Z → string) (user user' : string) (stamp stamp' : Z)
    (error error' : option JsError) (env : SessionService.Browser)
    (st : PresenceService.t) :
  SessionService.access (SessionService.localStorage env) = SessionService.Granted →
  SessionService.access (SessionService.sessionStorage env) = SessionService.Granted →
  ∃ st1 env1 out1 st2 out2 p1 p2,
    PresenceService.initializePresence toISOString user stamp error env st
      = Normal (st1, env1, out1) ∧
    PresenceService.initializePresence toISOString user' stamp' error' env1 st1
      = Normal (st2, env1, out2) ∧
    PresenceService.tabPresenceSubject st1 = Some p1 ∧
    PresenceService.tabPresenceSubject st2 = Some p2 ∧
    PresenceService.deviceId p2 = PresenceService.deviceId p1 ∧
    PresenceService.tabId p2 = PresenceService.tabId p1 ∧
    PresenceService.deviceId p1 ≠ "" ∧ PresenceService.tabId p1 ≠ "" ∧
    PresenceService.state p2 = Active ∧ PresenceService.isActive p2 = true ∧
    PresenceService.heartbeats st2 = S (S (PresenceService.heartbeats st)).
Proof.
  intros Hl Hs.
  destruct (initializePresence_granted toISOString user stamp error env st Hl Hs)
    as (d & ls & g1 & tb & ss & g2 & Hd & Ht & Hinit).
  destruct (getOrCreate_keeps_identifier _ _ _ _ _ _ Hl Hd)
    as (Hdne & Hls & _ & _ & _ & Hd' & _).
  destruct (getOrCreate_keeps_identifier _ _ _ _ _ _ Hs Ht)
    as (Htne & Hss & _ & _ & _ & Ht' & _).
  eexists _, _, _. 
  pose (env1 := {| SessionService.localStorage := ls;
                   SessionService.sessionStorage := ss;
                   SessionService.navigator_userAgent :=
                     SessionService.navigator_userAgent env;
                   SessionService.random := g2 |}).
  destruct (initializePresence_granted toISOString user' stamp' error' env1
              (PresenceService.startHeartbeat
                 (PresenceService.set_tabPresence
                    {| PresenceService.userId := user;
                       PresenceService.deviceId := d;
                       PresenceService.tabId := tb;
                       PresenceService.isActive := true;
                       PresenceService.lastSeen := stamp;
                       PresenceService.userAgent :=
                         SessionService.navigator_userAgent env;
                       PresenceService.state := Active |} st)) Hls Hss)
    as (d2 & ls2 & g3 & tb2 & ss2 & g4 & Hd2 & Ht2 & Hinit2).
  simpl in Hd2, Ht2. rewrite Hd' in Hd2. injection Hd2 as <- <- <-.
  rewrite Ht' in Ht2. injection Ht2 as <- <- <-.
  eexists _, _, _, _. split; [exact Hinit |]. split; [exact Hinit2 |].
  simpl. by split_and!.
Qed.

Lemma initializePresence_again_witness :
  SessionService.access (SessionService.localStorage Examples.browser)
    = SessionService.Granted ∧
  SessionService.access (SessionService.sessionStorage Examples.browser)
    = SessionService.Granted ∧
  ∃ st1 env1 out1 st2 out2 p1 p2,
    PresenceService.initializePresence Examples.toISOString "user-1"
      Examples.new_year None Examples.browser
      (PresenceService.construct Examples.new_year) = Normal (st1, env1, out1) ∧
    PresenceService.initializePresence Examples.toISOString "user-1"
      (Examples.new_year + 1000) None env1 st1 = Normal (st2, env1, out2) ∧
    PresenceService.tabPresenceSubject st1 = Some p1 ∧
    PresenceService.tabPresenceSubject st2 = Some p2 ∧
    PresenceService.deviceId p2 = PresenceService.deviceId p1 ∧
    PresenceService.tabId p2 = PresenceService.tabId p1 ∧
    PresenceService.deviceId p1 ≠ "" ∧ PresenceService.tabId p1 ≠ "" ∧
    PresenceService.state p2 = Active ∧ PresenceService.isActive p2 = true ∧
    PresenceService.heartbeats st2 =
      S (S (PresenceService.heartbeats
              (PresenceService.construct Examples.new_year))).
Proof.
  split; [reflexivity |]. split; [reflexivity |].
  exact (initializePresence_again Examples.toISOString "user-1" "user-1"
           Examples.new_year (Examples.new_year + 1000) None None
           Examples.browser (PresenceService.construct Examples.new_year)
           eq_refl eq_refl).
Defined.

Lemma getTabState_recent (Date_getTime : string → option Z) now tab seen :
  Date_getTime (TabsStore.last_seen tab) = Some seen →
  now - seen ≤ 5 * PresenceService.minute →
  TabsStore.getTabState Date_getTime now tab = Active.
Proof.
  intros Hseen Hage. unfold TabsStore.getTabState, PresenceService.minute in *.
  rewrite Hseen. simpl.
  rewrite !bool_decide_eq_false_2 by lia. done.
Qed.

(** X9. The owner and the reader of a row can disagree. A tab that has the
    focus but saw no activity for more than 30 minutes publishes, at its
    heartbeat tick, a record in state Stale, and upserts a row with
    [is_active] true and the instant of the tick as [last_seen]; the row
    carries no state. A reader that parses that [last_seen] back and
    classifies the row within 5 minutes of the tick finds it Active, and
    counts it among the active tabs. *)
Theorem stale_owner_active_reader
    (toISOString : Z → string) (Date_getTime : string → option Z)
    (st : PresenceService.t) (now stamp : Z) (error : option JsError)
    (tab : TabsStore.Tab) (reader_now : Z) :
  PresenceService.live st →
  PresenceService.isTabActiveSubject st = true →
  now - PresenceService.lastActivityTime st > 30 * PresenceService.minute →
  Date_getTime (toISOString stamp) = Some stamp →
  reader_now - stamp ≤ 5 * PresenceService.minute →
  let tick := PresenceService.step toISOString
                (PresenceService.Tick now stamp error) st in
  ∃ p' row,
    PresenceService.tabPresenceSubject tick.1 = Some p' ∧
    PresenceService.state p' = Stale ∧
    filter PresenceService.is_upsert tick.2 = [Upsert row] ∧
    row_is_active row = true ∧
    (TabsStore.last_seen tab = row_last_seen row →
     TabsStore.is_active tab = row_is_active row →
     TabsStore.getTabState Date_getTime reader_now tab = Active ∧
     tab ∈ TabsStore.activeTabs [tab]).
Proof.
  intros Hlive Hf Hold Hparse Hreader tick.
  destruct (tick_published toISOString now stamp error st Hlive)
    as (p' & Hp' & Hstate & Hactive & Hseen & Hout).
  exists p', (PresenceService.upsertRow toISOString p').
  split; [done |]. split.
  { rewrite Hstate. by apply (computeState_rule _ _). }
  split; [done |]. simpl. rewrite Hactive, Hseen. split; [done |].
  intros Hls Hia. split.
  - apply (getTabState_recent Date_getTime reader_now tab stamp); [| done].
    by rewrite Hls.
  - unfold TabsStore.activeTabs. apply list_elem_of_filter.
    split; [by rewrite Hia, Hf | apply list_elem_of_here].
Qed.

Lemma stale_owner_active_reader_witness :
  PresenceService.live Examples.service ∧
  PresenceService.isTabActiveSubject Examples.service = true ∧
  (Examples.new_year + 31 * PresenceService.minute)
    - PresenceService.lastActivityTime Examples.service
    > 30 * PresenceService.minute ∧
  Examples.Date_getTime (Examples.toISOString Examples.new_year)
    = Some Examples.new_year ∧
  (Examples.new_year + 2000) - Examples.new_year ≤ 5 * PresenceService.minute ∧
  let tick := PresenceService.step Examples.toISOString
                (PresenceService.Tick
                   (Examples.new_year + 31 * PresenceService.minute)
                   Examples.new_year None) Examples.service in
  ∃ p' row,
    PresenceService.tabPresenceSubject tick.1 = Some p' ∧
    PresenceService.state p' = Stale ∧
    filter PresenceService.is_upsert tick.2 = [Upsert row] ∧
    row_is_active row = true ∧
    (TabsStore.last_seen (Examples.tab "device-1" "tab-1" true)
       = row_last_seen row →
     TabsStore.is_active (Examples.tab "device-1" "tab-1" true)
       = row_is_active row →
     TabsStore.getTabState Examples.Date_getTime (Examples.new_year + 2000)
       (Examples.tab "device-1" "tab-1" true) = Active ∧
     Examples.tab "device-1" "tab-1" true
       ∈ TabsStore.activeTabs [Examples.tab "device-1" "tab-1" true]).
Proof.
  assert (PresenceService.live Examples.service) as Hlive.
  { split; [by eexists | by compute]. }
  assert ((Examples.new_year + 31 * PresenceService.minute)
          - PresenceService.lastActivityTime Examples.service
          > 30 * PresenceService.minute) as Hold by (by compute).
  assert ((Examples.new_year + 2000) - Examples.new_year
          ≤ 5 * PresenceService.minute) as Hreader by (by compute).
  split; [exact Hlive |]. split; [reflexivity |]. split; [exact Hold |].
  split; [reflexivity |]. split; [exact Hreader |].
  exact (stale_owner_active_reader Examples.toISOString Examples.Date_getTime
           Examples.service _ Examples.new_year None
           (Examples.tab "device-1" "tab-1" true) (Examples.new_year + 2000)
           Hlive eq_refl Hold eq_refl Hreader).
Defined.

(** ** The registry: counting, overlapping fetches, the timer *)

Section RegistryMore.
Import TabsStore.
Implicit Types (st : TabsStore.t) (w : Polled).

Lemma length_filter_concat {A} (P : A → Prop) `{!∀ x, Decision (P x)}
    (gs : list (list A)) :
  length (filter P (concat gs)) = sum_list_with (λ g, length (filter P g)) gs.
Proof.
  induction gs as [|g gs IH]; simpl; [done |].
  by rewrite filter_app, length_app, IH.
Qed.

Lemma fetchTabs_settle_error result st :
  errorSignal (fetchTabs_settle result st).1 =
    match failure result with
    | Some e => Some (message e)
    | None => errorSignal st
    end.
Proof. by destruct result as [[data |] [error |] | err]. Qed.

Lemma fetchTabs_settle_frame result st :
  isLoadingSignal (fetchTabs_settle result st).1 = false ∧
  pollingInterval (fetchTabs_settle result st).1 = pollingInterval st ∧
  userId (fetchTabs_settle result st).1 = userId st.
Proof. by destruct result as [[data |] [error |] | err]. Qed.

Lemma fetchTabs_frame user result st :
  pollingInterval (fetchTabs user result st).1 = pollingInterval st ∧
  userId (fetchTabs user result st).1 = userId st.
Proof.
  unfold fetchTabs. destruct (negb (truthy (Some user))); [done |].
  pose proof (fetchTabs_settle_frame result (fetchTabs_begin st)) as (_ & Hp & Hu).
  destruct (fetchTabs_settle result (fetchTabs_begin st)). simpl in *.
  by rewrite Hp, Hu.
Qed.

Lemma stopPolling_stops w :
  tidy w →
  handle (stopPolling w) = None ∧ intervals (stopPolling w) = ∅ ∧
  pollingInterval (signals (stopPolling w)) = false ∧
  userId (signals (stopPolling w)) = userId (signals w) ∧
  next_handle (stopPolling w) = next_handle w.
Proof.
  intros [Hone Hflag]. unfold stopPolling, one_timer in *.
  destruct (handle w) as [h |] eqn:Hh; simpl.
  - destruct Hone as [user ->].
    split_and!; try done; try apply delete_singleton_eq.
  - rewrite Hh. split_and!; try done; by rewrite Hflag.
Qed.

Lemma startPolling_starts user w :
  tidy w →
  handle (startPolling user w) = Some (next_handle w) ∧
  intervals (startPolling user w) = {[next_handle w := user]} ∧
  pollingInterval (signals (startPolling user w)) = true ∧
  userId (signals (startPolling user w)) = userId (signals w).
Proof.
  intros Hw. destruct (stopPolling_stops w Hw) as (Hh & Hi & Hp & Hu & Hn).
  unfold startPolling. simpl. rewrite Hi, Hn. split_and!; try done.
Qed.

Lemma tidy_with_signals st w :
  tidy w → pollingInterval st = pollingInterval (signals w) →
  tidy (with_signals st w).
Proof. intros [Hone Hflag] Hp. split; [done |]. simpl. by rewrite Hp. Qed.

Lemma tidy_startPolling user w : tidy w → tidy (startPolling user w).
Proof.
  intros Hw. destruct (startPolling_starts user w Hw) as (Hh & Hi & Hp & _).
  split.
  - unfold one_timer. rewrite Hh. by exists user.
  - by rewrite Hp, Hh.
Qed.

Lemma tidy_stopPolling w : tidy w → tidy (stopPolling w).
Proof.
  intros Hw. destruct (stopPolling_stops w Hw) as (Hh & Hi & Hp & _).
  split.
  - unfold one_timer. by rewrite Hh.
  - by rewrite Hp, Hh.
Qed.

Lemma tidy_call c w : tidy w → tidy (call c w).1.
Proof.
  intros Hw. destruct c as [user | user result | user | | | h result | presence result];
    cbn [call].
  - unfold initializeTabs_begin. destruct (negb (truthy (Some user)));
      by apply tidy_with_signals.
  - unfold initializeTabs_resume. destruct (negb (truthy (Some user))).
    + by apply tidy_startPolling.
    + pose proof (fetchTabs_settle_frame result (signals w)) as (_ & Hp & _).
      destruct (fetchTabs_settle result (signals w)) as [st out]. simpl in *.
      by apply tidy_startPolling, tidy_with_signals.
  - by apply tidy_startPolling.
  - by apply tidy_stopPolling.
  - by apply tidy_stopPolling.
  - unfold pollFires. destruct (intervals w !! h) as [user |]; [| done].
    pose proof (fetchTabs_frame user result (signals w)) as [Hp _].
    destruct (fetchTabs user result (signals w)) as [st out]. simpl in *.
    by apply tidy_with_signals.
  - unfold onPresence. destruct (userId (signals w)) as [user |]; [| done].
    destruct (presence && truthy (Some user)); [| done].
    pose proof (fetchTabs_frame user result (signals w)) as [Hp _].
    destruct (fetchTabs user result (signals w)) as [st out]. simpl in *.
    by apply tidy_with_signals.
Qed.

Lemma calls_cons c cs w :
  (calls (c :: cs) w).1 = (calls cs (call c w).1).1.
Proof.
  simpl. destruct (call c w) as [w1 out1]. simpl. by destruct (calls cs w1).
Qed.

Lemma tidy_calls cs : ∀ w, tidy w → tidy (calls cs w).1.
Proof.
  induction cs as [|c cs IH]; intros w Hw; [done |].
  rewrite calls_cons. by apply IH, tidy_call.
Qed.

Lemma tidy_created : tidy created.
Proof. done. Qed.

Lemma initializeTabs_polls user result w :
  user ≠ "" →
  (initializeTabs user result w).1 =
    startPolling user
      (with_signals
         (fetchTabs_settle result
            (fetchTabs_begin (set_userId user (signals w)))).1 w).
Proof.
  intros Hu. unfold initializeTabs, initializeTabs_begin, initializeTabs_resume.
  rewrite (truthy_Some _ Hu). cbn [negb signals with_signals].
  by destruct (fetchTabs_settle result _).
Qed.
End RegistryMore.

(** X10. The count of active tabs is the count of the records with
    [is_active] true, each counted once whatever its group: the active
    records of the groups add up to [activeTabs$]; the active tabs are
    records of the list, in its order, and never more than the list
    holds. *)
Theorem activeTabs_across_groups (allTabs : list TabsStore.Tab) :
  sum_list_with (λ g, TabsStore.activeTabsCount (TabsStore.tabs g))
    (TabsStore.groupedTabs allTabs) = TabsStore.activeTabsCount allTabs ∧
  TabsStore.activeTabs allTabs `sublist_of` allTabs ∧
  (TabsStore.activeTabsCount allTabs ≤ length allTabs)%nat ∧
  (∀ tab, tab ∈ TabsStore.activeTabs allTabs ↔
          tab ∈ allTabs ∧ TabsStore.is_active tab = true).
Proof.
  unfold TabsStore.activeTabsCount, TabsStore.activeTabs. split_and!.
  - rewrite groupedTabs_partition.
    etrans.
    { symmetry.
      apply (sum_list_with_fmap
               (λ ts, length (filter (λ tab, TabsStore.is_active tab = true) ts))
               TabsStore.tabs). }
    rewrite <- length_filter_concat.
    apply Permutation_length. by rewrite concat_partition.
  - apply sublist_filter.
  - apply length_filter.
  - intros tab. rewrite list_elem_of_filter. tauto.
Qed.

(** X11. Fetches that overlap are not ordered. When a fetch is begun,
    then a newer one, and the newer settles first: the loading flag is
    down as soon as the newer has settled, though the older is still
    under way; if the older then settles with data, its data replaces the
    collection, whatever the newer brought; and if the first to settle
    failed and the last brought data, the collection is the new data and
    the error signal still holds the message of the failure. *)
Theorem last_settled_fetch_wins
    (st : TabsStore.t) (older newer : TabsStore.QueryResult) :
  let begun := TabsStore.fetchTabs_begin (TabsStore.fetchTabs_begin st) in
  let first := (TabsStore.fetchTabs_settle newer begun).1 in
  let last := (TabsStore.fetchTabs_settle older first).1 in
  TabsStore.isLoadingSignal first = false ∧
  (∀ data, older = TabsStore.Resolved (Some data) None →
           TabsStore.allTabsSignal last = data) ∧
  (∀ data e, older = TabsStore.Resolved (Some data) None →
             TabsStore.failure newer = Some e →
             TabsStore.allTabsSignal last = data ∧
             TabsStore.errorSignal last = Some (message e)).
Proof.
  intros begun first last. subst last first.
  split; [apply fetchTabs_settle_frame |]. split.
  - intros data ->. by rewrite fetchTabs_settle_tabs.
  - intros data e -> Hfail. rewrite fetchTabs_settle_tabs. split; [done |].
    by rewrite !fetchTabs_settle_error, Hfail.
Qed.

Lemma last_settled_fetch_wins_witness :
  TabsStore.Resolved (Some Examples.three_tabs) None
    = TabsStore.Resolved (Some Examples.three_tabs) None ∧
  TabsStore.failure (TabsStore.Rejected Examples.network_error)
    = Some Examples.network_error ∧
  let begun := TabsStore.fetchTabs_begin
                 (TabsStore.fetchTabs_begin TabsStore.construct) in
  let first := (TabsStore.fetchTabs_settle
                  (TabsStore.Rejected Examples.network_error) begun).1 in
  let last := (TabsStore.fetchTabs_settle
                 (TabsStore.Resolved (Some Examples.three_tabs) None) first).1 in
  TabsStore.allTabsSignal last = Examples.three_tabs ∧
  TabsStore.errorSignal last = Some (message Examples.network_error).
Proof.
  split; [reflexivity |]. split; [reflexivity |].
  destruct (last_settled_fetch_wins TabsStore.construct
              (TabsStore.Resolved (Some Examples.three_tabs) None)
              (TabsStore.Rejected Examples.network_error))
    as (_ & _ & Hboth).
  exact (Hboth Examples.three_tabs Examples.network_error eq_refl eq_refl).
Defined.

(** X12. The store never runs two poll timers. After any calls of
    [initializeTabs] (its two halves in any order and number),
    [startPolling], [stopPolling] and [cleanup], with timers firing and
    presence published in between, the timers that run are none when the
    store holds no handle, and else the single one whose handle it holds;
    [startPolling] leaves exactly one, whose callback fetches for the
    user it was started with, and [stopPolling] and [cleanup] leave
    none. *)
Theorem polling_keeps_one_timer (cs : list TabsStore.Call) (user : string) :
  let w := (TabsStore.calls cs TabsStore.created).1 in
  TabsStore.one_timer w ∧
  (size (TabsStore.intervals w) ≤ 1)%nat ∧
  TabsStore.pollingInterval (TabsStore.signals w)
    = bool_decide (is_Some (TabsStore.handle w)) ∧
  (∃ h, TabsStore.handle (TabsStore.startPolling user w) = Some h ∧
        TabsStore.intervals (TabsStore.startPolling user w) = {[h := user]}) ∧
  TabsStore.intervals (TabsStore.stopPolling w) = ∅ ∧
  TabsStore.intervals (TabsStore.cleanup w) = ∅.
Proof.
  intros w.
  assert (TabsStore.tidy w) as Hw by apply tidy_calls, tidy_created.
  destruct (stopPolling_stops w Hw) as (_ & Hstop & _).
  destruct (startPolling_starts user w Hw) as (Hh & Hi & _).
  split_and!; try done.
  - apply Hw.
  - destruct Hw as [Hone _]. unfold TabsStore.one_timer in Hone.
    destruct (TabsStore.handle w) as [h |].
    + destruct Hone as [u ->]. by rewrite map_size_singleton.
    + rewrite Hone, map_size_empty. lia.
  - apply Hw.
  - by eexists.
Qed.

(** X13. [cleanup] stops the poll timer and nothing else. After
    [initializeTabs] for a user has run to its end and then [cleanup], no
    timer runs and a
    firing of any old timer does nothing; but the user is still noted, and
    the next presence record that the presence service publishes makes
    the store query the tabs of that user again. *)
Theorem cleanup_keeps_presence_refresh
    (cs : list TabsStore.Call) (user : string)
    (result0 result : TabsStore.QueryResult) :
  user ≠ "" →
  let w := (TabsStore.calls cs TabsStore.created).1 in
  let w1 := (TabsStore.initializeTabs user result0 w).1 in
  let w2 := TabsStore.cleanup w1 in
  TabsStore.intervals w2 = ∅ ∧
  (∀ h, TabsStore.pollFires h result w2 = (w2, [])) ∧
  TabsStore.userId (TabsStore.signals w2) = Some user ∧
  filter TabsStore.is_select (TabsStore.onPresence true result w2).2
    = [Select user].
Proof.
  intros Hu w w1 w2.
  assert (TabsStore.tidy w) as Hw by apply tidy_calls, tidy_created.
  assert (truthy (Some user) = true) as Ht by (by apply truthy_Some).
  assert (TabsStore.tidy w1 ∧
          TabsStore.userId (TabsStore.signals w1) = Some user) as [Hw1 Hu1].
  { subst w1. rewrite (initializeTabs_polls _ _ _ Hu).
    pose proof (fetchTabs_settle_frame result0
                  (TabsStore.fetchTabs_begin
                     (TabsStore.set_userId user (TabsStore.signals w))))
      as (_ & Hp & Huser).
    assert (TabsStore.tidy
              (TabsStore.with_signals
                 (TabsStore.fetchTabs_settle result0
                    (TabsStore.fetchTabs_begin
                       (TabsStore.set_userId user (TabsStore.signals w)))).1 w))
      as Hw' by (by apply tidy_with_signals).
    split; [by apply tidy_startPolling |].
    destruct (startPolling_starts user _ Hw') as (_ & _ & _ & ->). done. }
  destruct (stopPolling_stops w1 Hw1) as (_ & Hi & _ & Hu2 & _).
  fold (TabsStore.cleanup w1) in Hi, Hu2. fold w2 in Hi, Hu2.
  split; [done |]. split.
  { intros h. unfold TabsStore.pollFires. by rewrite Hi, lookup_empty. }
  split; [congruence |].
  unfold TabsStore.onPresence. rewrite Hu2, Hu1, Ht. simpl.
  destruct (fetchTabs_sent user result (TabsStore.signals w2) Hu) as [_ Hout].
  destruct (TabsStore.fetchTabs user result (TabsStore.signals w2)) as [st out].
  simpl in *. rewrite Hout. simpl.
  by destruct result as [[data |] [error |] | err].
Qed.

Lemma cleanup_keeps_presence_refresh_witness :
  "user-1" ≠ "" ∧
  let w := (TabsStore.calls [] TabsStore.created).1 in
  let w1 := (TabsStore.initializeTabs "user-1"
               (TabsStore.Resolved (Some Examples.three_tabs) None) w).1 in
  let w2 := TabsStore.cleanup w1 in
  TabsStore.intervals w2 = ∅ ∧
  (∀ h, TabsStore.pollFires h (TabsStore.Rejected Examples.network_error) w2
        = (w2, [])) ∧
  TabsStore.userId (TabsStore.signals w2) = Some "user-1" ∧
  filter TabsStore.is_select
    (TabsStore.onPresence true (TabsStore.Rejected Examples.network_error) w2).2
    = [Select "user-1"].
Proof.
  assert ("user-1" ≠ "") as Hu by discriminate.
  split; [exact Hu |].
  exact (cleanup_keeps_presence_refresh [] "user-1"
           (TabsStore.Resolved (Some Examples.three_tabs) None)
           (TabsStore.Rejected Examples.network_error) Hu).
Defined.

(** X14. A store that was never told a user asks nothing of the remote
    store: from its construction, through timers firing, presence being
    published, [stopPolling] and [cleanup], it sends no request, writes
    nothing to the console, and its signals stay as constructed. *)
Theorem idle_store_sends_nothing (cs : list TabsStore.Call) :
  Forall (λ c, TabsStore.passive c = true) cs →
  TabsStore.calls cs TabsStore.created = (TabsStore.created, []).
Proof.
  induction cs as [|c cs IH]; intros Hall; [done |].
  apply Forall_cons in Hall as [Hc Hall]. cbn [TabsStore.calls].
  assert (TabsStore.call c TabsStore.created = (TabsStore.created, [])) as ->.
  { by destruct c. }
  by rewrite (IH Hall).
Qed.

Lemma idle_store_sends_nothing_witness :
  Forall (λ c, TabsStore.passive c = true)
    [TabsStore.PresencePublished true
       (TabsStore.Resolved (Some Examples.three_tabs) None);
     TabsStore.CallCleanup] ∧
  TabsStore.calls
    [TabsStore.PresencePublished true
       (TabsStore.Resolved (Some Examples.three_tabs) None);
     TabsStore.CallCleanup] TabsStore.created = (TabsStore.created, []).
Proof.
  assert (Forall (λ c, TabsStore.passive c = true)
            [TabsStore.PresencePublished true
               (TabsStore.Resolved (Some Examples.three_tabs) None);
             TabsStore.CallCleanup]) as Hall.
  { repeat (apply Forall_cons; split; [reflexivity |]). apply Forall_nil_2. }
  split; [exact Hall |]. exact (idle_store_sends_nothing _ Hall).
Defined.

(** ** What the dashboard shows of a record *)

Section Shown.
Import TabsStore.
Variable Date_getTime : string → option Z.
Variable toLocaleDateString : string → string.

(** [formatLastSeen] by the age in milliseconds. *)
Lemma formatLastSeen_age now s seen :
  Date_getTime s = Some seen →
  formatLastSeen Date_getTime toLocaleDateString now s =
    if bool_decide (now - seen < 60000) then "just now"
    else if bool_decide (now - seen < 3600000)
         then pretty ((now - seen) `div` 60000) +:+ "m ago"
    else if bool_decide (now - seen < 86400000)
         then pretty ((now - seen) `div` 3600000) +:+ "h ago"
    else toLocaleDateString s.
Proof.
  intros Hseen. unfold formatLastSeen. rewrite Hseen. simpl.
  assert (((now - seen) `div` 60000) `div` 60 = (now - seen) `div` 3600000) as Hh.
  { rewrite Z.div_div by lia. done. }
  rewrite Hh.
  repeat case_bool_decide; try done; exfalso;
    repeat match goal with
           | H : context [?a `div` ?b] |- _ =>
               let q := fresh "q" in
               pose proof (Z.div_mod a b ltac:(lia));
               pose proof (Z.mod_pos_bound a b ltac:(lia));
               set (q := a `div` b) in *; clearbody q
           end; lia.
Qed.

Lemma formatLastSeen_invalid now s :
  Date_getTime s = None →
  formatLastSeen Date_getTime toLocaleDateString now s = toLocaleDateString s.
Proof. intros Hseen. unfold formatLastSeen. by rewrite Hseen. Qed.
End Shown.

(** X15. [formatLastSeen] by the age of the date, the time from it to now:
    below one minute (a date in the future included) it gives 'just now';
    from one minute to below one hour, the whole minutes, from 1 to 59,
    and 'm ago'; from one hour to below 24 hours, the whole hours, from 1
    to 23, and 'h ago'; from 24 hours on, and for a string that is no date,
    what [toLocaleDateString] gives. *)
Theorem formatLastSeen_by_age
    (Date_getTime : string → option Z) (toLocaleDateString : string → string)
    (now : Z) (s : string) :
  let age := (λ seen, now - seen) <$> Date_getTime s in
  let shown := TabsStore.formatLastSeen Date_getTime toLocaleDateString now s in
  (∀ d, age = Some d → d < PresenceService.minute → shown = "just now") ∧
  (∀ d, age = Some d →
        PresenceService.minute ≤ d < 60 * PresenceService.minute →
        1 ≤ d `div` PresenceService.minute ≤ 59 ∧
        shown = pretty (d `div` PresenceService.minute) +:+ "m ago") ∧
  (∀ d, age = Some d →
        60 * PresenceService.minute ≤ d < 24 * 60 * PresenceService.minute →
        1 ≤ d `div` (60 * PresenceService.minute) ≤ 23 ∧
        shown = pretty (d `div` (60 * PresenceService.minute)) +:+ "h ago") ∧
  (∀ d, age = Some d → 24 * 60 * PresenceService.minute ≤ d →
        shown = toLocaleDateString s) ∧
  (age = None → shown = toLocaleDateString s).
Proof.
  intros age shown. subst age shown. unfold PresenceService.minute.
  destruct (Date_getTime s) as [seen |] eqn:Hseen; simpl.
  - rewrite (formatLastSeen_age _ _ _ _ _ Hseen).
    change (60 * 1000) with 60000. change (60 * 60000) with 3600000.
    split_and!.
    + intros d [= <-] Hd. by rewrite bool_decide_eq_true_2 by lia.
    + intros d [= <-] Hd.
      rewrite bool_decide_eq_false_2, bool_decide_eq_true_2 by lia.
      split; [| done].
      pose proof (Z.div_mod (now - seen) 60000 ltac:(lia)).
      pose proof (Z.mod_pos_bound (now - seen) 60000 ltac:(lia)). lia.
    + intros d [= <-] Hd.
      rewrite !bool_decide_eq_false_2, bool_decide_eq_true_2 by lia.
      split; [| done].
      pose proof (Z.div_mod (now - seen) 3600000 ltac:(lia)).
      pose proof (Z.mod_pos_bound (now - seen) 3600000 ltac:(lia)). lia.
    + intros d [= <-] Hd. by rewrite !bool_decide_eq_false_2 by lia.
    + done.
  - split_and!; try done. intros _. by apply formatLastSeen_invalid.
Qed.

Lemma formatLastSeen_by_age_witness :
  (λ seen, Examples.new_year + 150000 - seen)
    <$> Examples.Date_getTime "2024-01-01T00:00:00.000Z" = Some 150000 ∧
  PresenceService.minute ≤ 150000 < 60 * PresenceService.minute ∧
  1 ≤ 150000 `div` PresenceService.minute ≤ 59 ∧
  TabsStore.formatLastSeen Examples.Date_getTime (λ s, s)
    (Examples.new_year + 150000) "2024-01-01T00:00:00.000Z"
  = pretty (150000 `div` PresenceService.minute) +:+ "m ago".
Proof.
  assert (PresenceService.minute ≤ 150000 < 60 * PresenceService.minute) as Hd
    by (by compute).
  split; [reflexivity |]. split; [exact Hd |].
  destruct (formatLastSeen_by_age Examples.Date_getTime (λ s, s)
              (Examples.new_year + 150000) "2024-01-01T00:00:00.000Z")
    as (_ & Hmin & _).
  exact (Hmin 150000 eq_refl Hd).
Defined.

(** X16. The label beside the state. For a record whose [last_seen] is a
    date, read at the same instant: when [getTabState] says Active the
    label is 'just now' or 1 to 5 minutes ago; when it says Idle the label
    is 5 to 30 minutes ago; when it says Stale the label is 30 to 59
    minutes ago, or 1 to 23 hours ago, or a date. *)
Theorem label_beside_state
    (Date_getTime : string → option Z) (toLocaleDateString : string → string)
    (now seen : Z) (tab : TabsStore.Tab) :
  Date_getTime (TabsStore.last_seen tab) = Some seen →
  let shown := TabsStore.formatLastSeen Date_getTime toLocaleDateString now
                 (TabsStore.last_seen tab) in
  match TabsStore.getTabState Date_getTime now tab with
  | Active =>
      shown = "just now" ∨ ∃ n, 1 ≤ n ≤ 5 ∧ shown = pretty n +:+ "m ago"
  | Idle => ∃ n, 5 ≤ n ≤ 30 ∧ shown = pretty n +:+ "m ago"
  | Stale =>
      (∃ n, 30 ≤ n ≤ 59 ∧ shown = pretty n +:+ "m ago") ∨
      (∃ n, 1 ≤ n ≤ 23 ∧ shown = pretty n +:+ "h ago") ∨
      shown = toLocaleDateString (TabsStore.last_seen tab)
  end.
Proof.
  intros Hseen shown. subst shown.
  rewrite (formatLastSeen_age _ _ _ _ _ Hseen).
  unfold TabsStore.getTabState. rewrite Hseen. simpl.
  pose proof (Z.div_mod (now - seen) 60000 ltac:(lia)).
  pose proof (Z.mod_pos_bound (now - seen) 60000 ltac:(lia)).
  pose proof (Z.div_mod (now - seen) 3600000 ltac:(lia)).
  pose proof (Z.mod_pos_bound (now - seen) 3600000 ltac:(lia)).
  repeat case_bool_decide; try lia;
    solve [ by left
          | by (right; right)
          | eexists; split; [| done]; lia
          | left; eexists; split; [| done]; lia
          | right; eexists; split; [| done]; lia
          | right; left; eexists; split; [| done]; lia ].
Qed.

Lemma label_beside_state_witness :
  Examples.Date_getTime
    (TabsStore.last_seen (Examples.tab "device-1" "tab-1" true))
    = Some Examples.new_year ∧
  ∃ n, 5 ≤ n ≤ 30 ∧
       TabsStore.formatLastSeen Examples.Date_getTime (λ s, s)
         (Examples.new_year + 10 * PresenceService.minute)
         (TabsStore.last_seen (Examples.tab "device-1" "tab-1" true))
       = pretty n +:+ "m ago".
Proof.
  split; [reflexivity |].
  exact (label_beside_state Examples.Date_getTime (λ s, s)
           (Examples.new_year + 10 * PresenceService.minute) Examples.new_year
           (Examples.tab "device-1" "tab-1" true) eq_refl).
Defined.

(** ** Signing in and out *)

(** X17. [signUp] returns the data of the client or throws its error, and
    never publishes a user: the current user is after it what it was
    before, so after a sign-up from a signed-out application the guard
    still refuses the route and navigates to /login. *)
Theorem signUp_does_not_sign_in
    (result : AuthService.AuthResult) (st st' : AuthService.t)
    (user : option AuthService.User) :
  AuthService.signUp result st = Normal (st', user) →
  st' = st ∧
  result = AuthService.AuthResolved user None ∧
  (AuthService.currentUser st = None →
   AuthService.authGuard st' = (false, ["/login"])).
Proof.
  destruct result as [u [e |] | err]; simpl; intros [= <- <-]; try done.
  split_and!; try done. intros Hnone. unfold AuthService.authGuard.
  by rewrite Hnone.
Qed.

Lemma signUp_does_not_sign_in_witness :
  AuthService.signUp
    (AuthService.AuthResolved (Some {| AuthService.id := "user-1" |}) None)
    AuthService.construct
    = Normal (AuthService.construct, Some {| AuthService.id := "user-1" |}) ∧
  AuthService.currentUser AuthService.construct = None ∧
  AuthService.authGuard AuthService.construct = (false, ["/login"]).
Proof.
  split; [reflexivity |]. split; [reflexivity |].
  destruct (signUp_does_not_sign_in
              (AuthService.AuthResolved (Some {| AuthService.id := "user-1" |}) None)
              AuthService.construct AuthService.construct
              (Some {| AuthService.id := "user-1" |}) eq_refl)
    as (_ & _ & Hguard).
  exact (Hguard eq_refl).
Defined.

(** X18. [signIn] publishes the user of the result exactly when the
    result has no error, and then the guard lets the route pass; with an
    error in the result, or on a rejection, it throws that error and
    returns no service, so nothing is published. [signOut] clears the user
    whenever the call of the client returns, an error in its result
    included, and the guard then refuses and navigates to /login; only a
    rejection leaves the user, by throwing. *)
Theorem signIn_signOut_guard
    (result : AuthService.AuthResult) (st : AuthService.t) :
  match AuthService.signIn result st with
  | Normal (st', user) =>
      result = AuthService.AuthResolved user None ∧
      AuthService.currentUser st' = user ∧
      (∀ u, user = Some u → AuthService.authGuard st' = (true, []))
  | Throw e =>
      result = AuthService.AuthRejected e ∨
      ∃ user, result = AuthService.AuthResolved user (Some e)
  end ∧
  match AuthService.signOut result st with
  | Normal st' =>
      (∃ user error, result = AuthService.AuthResolved user error) ∧
      AuthService.currentUser st' = None ∧
      AuthService.authGuard st' = (false, ["/login"])
  | Throw e => result = AuthService.AuthRejected e
  end.
Proof.
  destruct result as [u [e |] | err]; simpl; split; try done.
  - right. by exists u.
  - split; [by eexists _, _ | done].
  - split_and!; try done. by intros u' ->.
  - split; [by eexists _, _ | done].
  - by left.
Qed.

Lemma signIn_signOut_guard_witness :
  AuthService.signIn
    (AuthService.AuthResolved (Some {| AuthService.id := "user-1" |}) None)
    AuthService.construct
    = Normal ({| AuthService.currentUser := Some {| AuthService.id := "user-1" |} |},
              Some {| AuthService.id := "user-1" |}) ∧
  AuthService.authGuard
    {| AuthService.currentUser := Some {| AuthService.id := "user-1" |} |}
    = (true, []).
Proof.
  split; [reflexivity |].
  destruct (signIn_signOut_guard
              (AuthService.AuthResolved (Some {| AuthService.id := "user-1" |}) None)
              AuthService.construct) as [(_ & _ & Hguard) _].
  exact (Hguard _ eq_refl).
Defined.
